(** * The Grand Plan: a shallow embedding of [index.tsx]

    The page script wires four controllers to the DOM: the section
    expansion handler [handleExploreClick], the icon fetcher
    [generateIcons], the vision generator [generateGrandVision] and the
    chat form handler installed by [initChat].  Each of them calls the
    generative service, awaits its answer and mutates a few DOM nodes
    inside a [try]/[catch]/[finally].

    Modelling choices.
    - JavaScript strings are [string]s holding the UTF-8 bytes of the text.
    - A handler runs on the DOM nodes it holds references to and on the
      script's globals ([world]): the log of service calls, the console
      and the module level variable [chat].
    - The service is the environment.  What it answers to a call is an
      argument of the handler: a [stream_result] for the streaming calls,
      an [image_result] for the image call.  A stream is the finite list
      of the chunks it delivers and the way it ends; the [text] of a chunk
      is a string or [undefined].
    - A handler is run from its first line to its last against the answer
      it is given: the browser is single threaded, and the controls that
      start a handler on the same DOM node are disabled while it is in
      flight (the chat handler writes to a node of its own).
    - Exceptions are explicit: a computation ends in a [completion], and
      [try_catch_finally] is the statement of the same name. *)

From stdpp Require Import base list strings.
From Stdlib Require Import Ascii Lia.

(** ** JavaScript values *)

Module Js.

(** The double quote character, for the prompts that quote a title. *)
Definition dquote : string := String "034"%char EmptyString.

(** The line feed of a template literal that spans several lines. *)
Definition nl : string := String "010"%char EmptyString.

(** [String(b)] for a boolean. *)
Definition String_of_bool (b : bool) : string :=
  if b then "true" else "false".

(** The string a value of type [string | undefined] converts to when it
    is appended to a string with [+=]: [undefined], as [None], gives the
    text [undefined]. *)
Definition ToString (v : option string) : string :=
  match v with
  | Some s => s
  | None => "undefined"
  end.

(** Truthiness of a string: only the empty string is falsy. *)
Definition truthy (s : string) : bool :=
  match s with
  | EmptyString => false
  | String _ _ => true
  end.

(** [s || d] for a string (or [undefined], as [None]) and a default. *)
Definition or_else (s : option string) (d : string) : string :=
  match s with
  | Some v => if truthy v then v else d
  | None => d
  end.

(** [xs.join(sep)]. *)
Fixpoint join (sep : string) (xs : list string) : string :=
  match xs with
  | [] => ""
  | [x] => x
  | x :: rest => x +:+ sep +:+ join sep rest
  end.

(** *** [String.prototype.trim]

    [trim] strips the WhiteSpace and LineTerminator code points of
    ECMAScript from both ends.  On UTF-8 bytes a white space code point
    is one, two or three bytes long. *)

Definition byte_in (b : ascii) (lo hi : N) : bool :=
  let n := N_of_ascii b in ((lo <=? n) && (n <=? hi))%N.

Definition byte_is (b : ascii) (v : N) : bool := (N_of_ascii b =? v)%N.

(** TAB, LF, VT, FF, CR and SPACE. *)
Definition ascii_white_space (b : ascii) : bool :=
  byte_in b 9 13 || byte_is b 32.

(** U+00A0, as C2 A0. *)
Definition white_space2 (a b : ascii) : bool :=
  byte_is a 194 && byte_is b 160.

(** U+1680; U+2000 to U+200A, U+2028, U+2029, U+202F; U+205F; U+3000;
    U+FEFF. *)
Definition white_space3 (a b c : ascii) : bool :=
  (byte_is a 225 && byte_is b 154 && byte_is c 128)
  || (byte_is a 226 && byte_is b 128
      && (byte_in c 128 138 || byte_in c 168 169 || byte_is c 175))
  || (byte_is a 226 && byte_is b 129 && byte_is c 159)
  || (byte_is a 227 && byte_is b 128 && byte_is c 128)
  || (byte_is a 239 && byte_is b 187 && byte_is c 191).

(** The number of bytes of the white space code point [s] starts with,
    [0] when it starts with none. *)
Definition white_space_width (s : string) : nat :=
  match s with
  | String a r =>
      if ascii_white_space a then 1
      else match r with
           | String b r' =>
               if white_space2 a b then 2
               else match r' with
                    | String c _ => if white_space3 a b c then 3 else 0
                    | EmptyString => 0
                    end
           | EmptyString => 0
           end
  | EmptyString => 0
  end.

(** [skip] counts the bytes still to drop of the white space code point
    being removed. *)
Fixpoint trimStart_from (skip : nat) (s : string) : string :=
  match s with
  | EmptyString => EmptyString
  | String _ r =>
      match skip with
      | S k => trimStart_from k r
      | O =>
          match white_space_width s with
          | O => s
          | S k => trimStart_from k r
          end
      end
  end.

Definition trimStart (s : string) : string := trimStart_from 0 s.

(** A suffix is dropped when it is white space only. *)
Fixpoint trimEnd (s : string) : string :=
  match s with
  | EmptyString => EmptyString
  | String a r =>
      match trimStart s with
      | EmptyString => EmptyString
      | String _ _ => String a (trimEnd r)
      end
  end.

Definition trim (s : string) : string := trimEnd (trimStart s).

(** *** [DOMTokenList] *)

Definition contains (cl : list string) (c : string) : bool :=
  bool_decide (c ∈ cl).

Definition remove (cl : list string) (c : string) : list string :=
  filter (λ x, x ≠ c) cl.

Definition add (cl : list string) (c : string) : list string :=
  if contains cl c then cl else cl ++ [c].

(** [toggle] returns the new list and whether the token is now present. *)
Definition toggle (cl : list string) (c : string) : list string * bool :=
  if contains cl c then (remove cl c, false) else (cl ++ [c], true).

End Js.

Arguments Js.or_else : simpl never.
Arguments Js.contains : simpl never.
Arguments Js.add : simpl never.
Arguments Js.remove : simpl never.
Arguments Js.trim : simpl never.

(** ** The generative service *)

(** What a handler can catch: a failure reported by the service, or the
    [TypeError] of a property read on [undefined]. *)
Inductive exn : Type :=
| ServiceFailure (detail : string)
| TypeError (detail : string).

(** A chat session object, as [ai.chats.create] returns it. *)
Record session : Type := Session {
  session_id : nat;
  session_model : string;
  session_systemInstruction : string
}.

(** The calls the script makes on [ai]. *)
Inductive api_call : Type :=
| GenerateContentStream (model prompt : string)
| GenerateContent (model prompt aspectRatio : string)
| ChatsCreate (model systemInstruction : string)
| SendMessageStream (s : session) (message : string).

(** The answer to a streaming call: the awaited call rejects, or it gives
    a stream that delivers [chunks] and then completes
    ([stream_failure = None]) or throws.  A chunk is given by its [text],
    which is a string, or [undefined] ([None]) for a chunk that carries no
    text. *)
Inductive stream_result : Type :=
| Rejected (detail : string)
| Stream (chunks : list (option string)) (stream_failure : option string).

(** The answer to the image call. Every level of
    [response.candidates[0].content.parts] may be missing. *)
Record blob : Type := Blob { blob_data : string }.
Record part : Type := Part {
  part_text : option string;
  part_inlineData : option blob
}.
Record content : Type := Content { content_parts : option (list part) }.
Record candidate : Type := Candidate { candidate_content : option content }.
Record image_response : Type := ImageResponse {
  response_candidates : option (list candidate)
}.

Inductive image_result : Type :=
| ImageRejected (detail : string)
| ImageOk (response : image_response).

(** ** Globals *)

Record console_entry : Type := ConsoleError {
  entry_label : string;
  entry_error : exn
}.

Record world : Type := World {
  calls : list api_call;          (* the service calls made so far, oldest first *)
  console : list console_entry;   (* console.error, oldest first *)
  chat : option session           (* let chat: any = null *)
}.

Definition log_call (c : api_call) (w : world) : world :=
  {| calls := calls w ++ [c]; console := console w; chat := chat w |}.

Definition log_error (label : string) (e : exn) (w : world) : world :=
  {| calls := calls w; console := console w ++ [ConsoleError label e];
     chat := chat w |}.

Definition set_chat (s : session) (w : world) : world :=
  {| calls := calls w; console := console w; chat := Some s |}.

(** ** Computations that may throw *)

Inductive completion (A : Type) : Type :=
| Normal (a : A)
| Throw (e : exn).
Arguments Normal {A} a.
Arguments Throw {A} e.

(** A computation over the DOM nodes [D] a handler works on and the
    globals.  What was written before a throw stays written. *)
Definition js (D A : Type) : Type := D → world → completion A * D * world.

Section Computations.
Context {D : Type}.

Definition ret {A} (a : A) : js D A := λ d w, (Normal a, d, w).

Definition bind {A B} (m : js D A) (k : A → js D B) : js D B :=
  λ d w,
    match m d w with
    | (Normal a, d', w') => k a d' w'
    | (Throw e, d', w') => (Throw e, d', w')
    end.

Definition throw {A} (e : exn) : js D A := λ d w, (Throw e, d, w).

Definition get_dom : js D D := λ d w, (Normal d, d, w).

Definition modify_dom (f : D → D) : js D unit := λ d w, (Normal tt, f d, w).

Definition get_world : js D world := λ d w, (Normal w, d, w).

Definition modify_world (f : world → world) : js D unit :=
  λ d w, (Normal tt, d, f w).

(** [try { body } catch (e) { handler e } finally { fin }]. *)
Definition try_catch_finally
    (body : js D unit) (handler : exn → js D unit) (fin : js D unit)
    : js D unit :=
  λ d w,
    let '(c, d1, w1) :=
      match body d w with
      | (Normal a, d', w') => (Normal a, d', w')
      | (Throw e, d', w') => handler e d' w'
      end in
    match fin d1 w1 with
    | (Normal _, d2, w2) => (c, d2, w2)
    | (Throw e, d2, w2) => (Throw e, d2, w2)
    end.

(** [try { body } catch (e) { handler e }]. *)
Definition try_catch (body : js D unit) (handler : exn → js D unit)
    : js D unit :=
  try_catch_finally body handler (ret tt).

(** [console.error(label, e)]. *)
Definition console_error (label : string) (e : exn) : js D unit :=
  modify_world (log_error label e).

(** [await call]: the call is made, then its answer arrives. *)
Definition await_stream (call : api_call) (r : stream_result)
    : js D (list (option string) * option string) :=
  λ d w,
    match r with
    | Rejected detail => (Throw (ServiceFailure detail), d, log_call call w)
    | Stream chunks failure => (Normal (chunks, failure), d, log_call call w)
    end.

(** [for await (const chunk of stream) { body chunk }]. *)
Fixpoint for_await (chunks : list (option string)) (failure : option string)
    (body : option string → js D unit) : js D unit :=
  match chunks with
  | [] =>
      match failure with
      | None => ret tt
      | Some detail => throw (ServiceFailure detail)
      end
  | chunk :: rest => bind (body chunk) (λ _, for_await rest failure body)
  end.

End Computations.

#[export] Instance js_ret {D} : MRet (js D) := @ret D.
#[export] Instance js_bind {D} : MBind (js D) := λ A B k m, bind m k.

(** [x <- m ;; k] binds the result of [m]; [m ;; k] drops it. *)
Notation "x <- m ;; k" := (bind m (λ x, k))
  (at level 20, m at level 99, k at level 200, only parsing).

(** ** DOM nodes *)

(** An element that holds text: a [<p>], a [<div>], the vision surface. *)
Record element : Type := Element {
  el_tag : string;
  el_classList : list string;
  el_textContent : string
}.

(** [document.createElement(tag)]. *)
Definition createElement (tag : string) : element :=
  {| el_tag := tag; el_classList := []; el_textContent := "" |}.

Definition with_classList (f : list string → list string) (e : element)
    : element :=
  {| el_tag := el_tag e; el_classList := f (el_classList e);
     el_textContent := el_textContent e |}.

Definition set_textContent (t : string) (e : element) : element :=
  {| el_tag := el_tag e; el_classList := el_classList e;
     el_textContent := t |}.

(** [e.textContent += chunk.text]. *)
Definition append_textContent (text : option string) (e : element) : element :=
  set_textContent (el_textContent e +:+ Js.ToString text) e.

(** The content of a container: what [innerHTML] was last set to, followed
    by the nodes appended since with [appendChild].  A node the script
    appended is referred to by its position among the appended nodes. *)
Record container (N : Type) : Type := Container {
  markup : string;
  appended : list N
}.
Arguments Container {N} markup appended.
Arguments markup {N} c.
Arguments appended {N} c.

(** [c.innerHTML = html]. *)
Definition set_innerHTML {N} (html : string) (_ : container N) : container N :=
  {| markup := html; appended := [] |}.

(** [c.appendChild(n)]. *)
Definition appendChild {N} (n : N) (c : container N) : container N :=
  {| markup := markup c; appended := appended c ++ [n] |}.

(** A write through the reference [i] to an appended node. *)
Definition with_child {N} (i : nat) (f : N → N) (c : container N)
    : container N :=
  {| markup := markup c; appended := alter f i (appended c) |}.

Record button : Type := Button {
  btn_textContent : string;
  btn_aria_expanded : option string;   (* the aria-expanded attribute *)
  btn_disabled : bool;
  btn_display : option string          (* style.display *)
}.

Definition set_btn_textContent (t : string) (b : button) : button :=
  {| btn_textContent := t; btn_aria_expanded := btn_aria_expanded b;
     btn_disabled := btn_disabled b; btn_display := btn_display b |}.

Definition set_btn_aria_expanded (v : string) (b : button) : button :=
  {| btn_textContent := btn_textContent b; btn_aria_expanded := Some v;
     btn_disabled := btn_disabled b; btn_display := btn_display b |}.

Definition set_btn_disabled (v : bool) (b : button) : button :=
  {| btn_textContent := btn_textContent b;
     btn_aria_expanded := btn_aria_expanded b;
     btn_disabled := v; btn_display := btn_display b |}.

Definition set_btn_display (v : string) (b : button) : button :=
  {| btn_textContent := btn_textContent b;
     btn_aria_expanded := btn_aria_expanded b;
     btn_disabled := btn_disabled b; btn_display := Some v |}.

(** The browser delivers a click to a button that is enabled and shown. *)
Definition clickable (b : button) : bool :=
  negb (btn_disabled b) && negb (bool_decide (btn_display b = Some "none")).

(** ** Section expansion *)

(** A [.plan-section] with its learn-more button.  The handler reads the
    [h2] and the [p] through a cast to [HTMLElement], so a section has
    both; the details container is looked up and tested. *)
Record plan_section : Type := PlanSection {
  sec_classList : list string;
  sec_dataset_content : option string;          (* section.dataset.content *)
  sec_h2 : string;                              (* textContent of the h2 *)
  sec_p : string;                               (* textContent of the p *)
  sec_details : option (container element);     (* .details-container *)
  sec_button : button
}.

Definition set_sec_classList (cl : list string) (s : plan_section)
    : plan_section :=
  {| sec_classList := cl; sec_dataset_content := sec_dataset_content s;
     sec_h2 := sec_h2 s; sec_p := sec_p s; sec_details := sec_details s;
     sec_button := sec_button s |}.

Definition set_sec_dataset_content (v : string) (s : plan_section)
    : plan_section :=
  {| sec_classList := sec_classList s; sec_dataset_content := Some v;
     sec_h2 := sec_h2 s; sec_p := sec_p s; sec_details := sec_details s;
     sec_button := sec_button s |}.

Definition with_details (f : container element → container element)
    (s : plan_section) : plan_section :=
  {| sec_classList := sec_classList s;
     sec_dataset_content := sec_dataset_content s;
     sec_h2 := sec_h2 s; sec_p := sec_p s; sec_details := f <$> sec_details s;
     sec_button := sec_button s |}.

Definition with_button (f : button → button) (s : plan_section)
    : plan_section :=
  {| sec_classList := sec_classList s;
     sec_dataset_content := sec_dataset_content s;
     sec_h2 := sec_h2 s; sec_p := sec_p s; sec_details := sec_details s;
     sec_button := f (sec_button s) |}.

Module Explore.
Import Js.

Definition model : string := "gemini-3-flash-preview".

Definition prompt (title description : string) : string :=
  "Act as a futuristic historian and philosopher. Expand on the concept of "
  +:+ dquote +:+ title +:+ dquote +:+ ". " +:+ nl
  +:+ "        Original summary: " +:+ description +:+ ". " +:+ nl
  +:+ "        Provide a deeper visionary perspective in 2 concise paragraphs. "
  +:+ nl
  +:+ "        Focus on the technological breakthroughs and the positive evolution of the human spirit in this bright future.".

Definition loading_markup : string :=
  "<div class=" +:+ dquote +:+ "message assistant" +:+ dquote
  +:+ ">Initializing deep dive...</div>".

Definition error_markup : string :=
  "<p style=" +:+ dquote +:+ "color: #ef4444;" +:+ dquote
  +:+ ">Error accessing the data stream. Connection disrupted.</p>".

(** [section.classList.toggle('expanded')]. *)
Definition toggle_expanded : js plan_section bool :=
  section <- get_dom;;
  let '(cl, now) := toggle (sec_classList section) "expanded" in
  modify_dom (set_sec_classList cl);;
  mret now.

(** The body of [handleExploreClick] once [section] is found. *)
Definition on_section (r : stream_result) : js plan_section unit :=
  section <- get_dom;;
  match sec_details section with
  | None => mret tt
  | Some _ =>
      isExpanded <- toggle_expanded;;
      modify_dom (with_button
                    (set_btn_aria_expanded (String_of_bool isExpanded)));;
      if isExpanded then
        modify_dom (with_button (set_btn_textContent "Seal Frontier"));;
        section <- get_dom;;
        let isLoaded :=
          bool_decide (sec_dataset_content section = Some "loaded") in
        if negb isLoaded then
          modify_dom (with_details (set_innerHTML loading_markup));;
          modify_dom (with_button (set_btn_disabled true));;
          try_catch_finally
            (section <- get_dom;;
             let title := or_else (Some (sec_h2 section)) "" in
             let description := or_else (Some (sec_p section)) "" in
             responseStream <-
               await_stream
                 (GenerateContentStream model (prompt title description)) r;;
             modify_dom (with_details (set_innerHTML ""));;
             let contentP :=
               with_classList (λ cl, add cl "streaming") (createElement "p") in
             modify_dom (with_details (appendChild contentP));;
             for_await responseStream.1 responseStream.2
               (λ chunk,
                  modify_dom
                    (with_details
                       (with_child 0 (append_textContent chunk))));;
             modify_dom
               (with_details
                  (with_child 0
                     (with_classList (λ cl, remove cl "streaming"))));;
             modify_dom (set_sec_dataset_content "loaded"))
            (λ error,
               console_error "Error:" error;;
               modify_dom (with_details (set_innerHTML error_markup)))
            (modify_dom (with_button (set_btn_disabled false)))
        else mret tt
      else
        modify_dom (with_button (set_btn_textContent "Explore Frontier"))
  end.

(** [handleExploreClick]: [closest] is what
    [button.closest('.plan-section')] finds.  The result is the section
    after the click (when there is one) and the globals. *)
Definition handleExploreClick (closest : option plan_section)
    (r : stream_result) (w : world) : option plan_section * world :=
  match closest with
  | None => (None, w)
  | Some section =>
      let '(_, section', w') := on_section r section w in
      (Some section', w')
  end.

End Explore.

(** ** Icons *)

Record img : Type := Img { img_src : string; img_alt : string }.

Record placeholder : Type := Placeholder {
  ph_dataset_phase : option string;   (* placeholder.dataset.phase *)
  ph_content : container img;
  ph_fontSize : option string;        (* style.fontSize *)
  ph_color : option string            (* style.color *)
}.

Definition with_ph_content (f : container img → container img)
    (p : placeholder) : placeholder :=
  {| ph_dataset_phase := ph_dataset_phase p; ph_content := f (ph_content p);
     ph_fontSize := ph_fontSize p; ph_color := ph_color p |}.

Definition set_ph_fontSize (v : string) (p : placeholder) : placeholder :=
  {| ph_dataset_phase := ph_dataset_phase p; ph_content := ph_content p;
     ph_fontSize := Some v; ph_color := ph_color p |}.

Definition set_ph_color (v : string) (p : placeholder) : placeholder :=
  {| ph_dataset_phase := ph_dataset_phase p; ph_content := ph_content p;
     ph_fontSize := ph_fontSize p; ph_color := Some v |}.

Module Icons.
Import Js.

Definition model : string := "gemini-2.5-flash-image".

Definition prompt (phaseName : string) : string :=
  "A highly detailed, clean, minimalist futuristic icon for "
  +:+ dquote +:+ phaseName +:+ dquote +:+ ". " +:+ nl
  +:+ "      Style: vibrant colors, soft gradients on a pure white background, modern glassmorphism aesthetic, "
  +:+ nl
  +:+ "      high-tech symbolic representation. High-key lighting, professional 3D render style with soft shadows.".

Definition glyph : string := "✨".

(** [await ai.models.generateContent(...)]. *)
Definition await_image {D} (call : api_call) (r : image_result)
    : js D image_response :=
  λ d w,
    match r with
    | ImageRejected detail =>
        (Throw (ServiceFailure detail), d, log_call call w)
    | ImageOk response => (Normal response, d, log_call call w)
    end.

(** [response.candidates[0].content.parts], as the [for ... of] reads
    it: a missing level is a [TypeError]. *)
Definition response_parts {D} (response : image_response)
    : js D (list part) :=
  match response_candidates response with
  | None => throw (TypeError "candidates is undefined")
  | Some candidates =>
      match candidates !! 0 with
      | None => throw (TypeError "candidates[0] is undefined")
      | Some c =>
          match candidate_content c with
          | None => throw (TypeError "content is undefined")
          | Some ct =>
              match content_parts ct with
              | None => throw (TypeError "parts is not iterable")
              | Some parts => ret parts
              end
          end
      end
  end.

(** The loop over the parts: the first part with [inlineData] gives the
    image and ends the loop. *)
Fixpoint for_parts (phaseName : string) (parts : list part)
    : js placeholder unit :=
  match parts with
  | [] => ret tt
  | part :: rest =>
      match part_inlineData part with
      | Some inlineData =>
          let img :=
            {| img_src := "data:image/png;base64," +:+ blob_data inlineData;
               img_alt := phaseName |} in
          modify_dom (with_ph_content (set_innerHTML ""));;
          modify_dom (with_ph_content (appendChild img))
      | None => for_parts phaseName rest
      end
  end.

(** The body of the loop of [generateIcons], for one placeholder. *)
Definition on_placeholder (r : image_result) : js placeholder unit :=
  placeholder <- get_dom;;
  let phaseName :=
    or_else (ph_dataset_phase placeholder) "Future technology" in
  try_catch
    (response <-
       await_image (GenerateContent model (prompt phaseName) "1:1") r;;
     parts <- response_parts response;;
     for_parts phaseName parts)
    (λ error,
       console_error "Icon generation failed:" error;;
       modify_dom (with_ph_content (set_innerHTML glyph));;
       modify_dom (set_ph_fontSize "24px");;
       modify_dom (set_ph_color "#3b82f6")).

(** [generateIcons] from the placeholder number [i] on: the answer to
    the request of placeholder [j] is [answers j].  An exception that
    leaves the body of the loop ends the loop. *)
Fixpoint generateIcons_from (i : nat) (placeholders : list placeholder)
    (answers : nat → image_result) (w : world)
    : list placeholder * world :=
  match placeholders with
  | [] => ([], w)
  | placeholder :: rest =>
      match on_placeholder (answers i) placeholder w with
      | (Normal _, placeholder', w') =>
          let '(rest', w'') := generateIcons_from (S i) rest answers w' in
          (placeholder' :: rest', w'')
      | (Throw _, placeholder', w') => (placeholder' :: rest, w')
      end
  end.

Definition generateIcons := generateIcons_from 0.

End Icons.

(** ** Vision *)

Record vision_dom : Type := VisionDom {
  visionText : element;   (* #vision-text *)
  btn : button            (* #generate-vision-btn *)
}.

Definition with_visionText (f : element → element) (d : vision_dom)
    : vision_dom :=
  {| visionText := f (visionText d); btn := btn d |}.

Definition with_btn (f : button → button) (d : vision_dom) : vision_dom :=
  {| visionText := visionText d; btn := f (btn d) |}.

Module Vision.
Import Js.

Definition model : string := "gemini-3-flash-preview".

Definition prompt (sections : string) : string :=
  "Synthesize these 10 phases of a grand human plan into a single, extremely powerful and uplifting visionary statement of roughly 3-4 sentences. "
  +:+ nl
  +:+ "    Phases: " +:+ sections +:+ ". " +:+ nl
  +:+ "    Make it feel optimistic, clear, and inspiring. Avoid dark or dystopian themes.".

Definition fallback : string :=
  "The vision is momentarily obscured. Please reconnect to the collective consciousness.".

(** The body of [generateGrandVision] once both elements are found;
    [titles] are the texts of the [.plan-section h2] elements. *)
Definition on_elements (titles : list string) (r : stream_result)
    : js vision_dom unit :=
  modify_dom (with_btn (set_btn_disabled true));;
  modify_dom
    (with_visionText (with_classList (λ cl, remove cl "placeholder-text")));;
  modify_dom (with_visionText (set_textContent ""));;
  modify_dom (with_visionText (with_classList (λ cl, add cl "streaming")));;
  let sections := join ", " titles in
  try_catch_finally
    (stream <-
       await_stream (GenerateContentStream model (prompt sections)) r;;
     for_await stream.1 stream.2
       (λ chunk, modify_dom (with_visionText (append_textContent chunk))))
    (λ error, modify_dom (with_visionText (set_textContent fallback)))
    (modify_dom
       (with_visionText (with_classList (λ cl, remove cl "streaming")));;
     modify_dom (with_btn (set_btn_display "none"))).

(** [generateGrandVision]: the two arguments are what
    [document.getElementById] finds. *)
Definition generateGrandVision
    (text_found : option element) (btn_found : option button)
    (titles : list string) (r : stream_result) (w : world)
    : option element * option button * world :=
  match text_found, btn_found with
  | Some v, Some b =>
      let '(_, d, w') := on_elements titles r (VisionDom v b) w in
      (Some (visionText d), Some (btn d), w')
  | _, _ => (text_found, btn_found, w)
  end.

End Vision.

(** ** Chat *)

Record chat_dom : Type := ChatDom {
  input_value : string;                (* #chat-input, its value *)
  chat_messages : container element;   (* #chat-messages *)
  scrolled : nat;                      (* times scrollTop was set to scrollHeight *)
  widget_classList : list string;      (* #ai-chat-widget *)
  toggle_textContent : string          (* #chat-toggle *)
}.

Definition set_input_value (v : string) (d : chat_dom) : chat_dom :=
  {| input_value := v; chat_messages := chat_messages d;
     scrolled := scrolled d; widget_classList := widget_classList d;
     toggle_textContent := toggle_textContent d |}.

Definition with_messages (f : container element → container element)
    (d : chat_dom) : chat_dom :=
  {| input_value := input_value d; chat_messages := f (chat_messages d);
     scrolled := scrolled d; widget_classList := widget_classList d;
     toggle_textContent := toggle_textContent d |}.

(** [container.scrollTop = container.scrollHeight]. *)
Definition scroll_to_end (d : chat_dom) : chat_dom :=
  {| input_value := input_value d; chat_messages := chat_messages d;
     scrolled := S (scrolled d); widget_classList := widget_classList d;
     toggle_textContent := toggle_textContent d |}.

Definition set_widget (cl : list string) (t : string) (d : chat_dom)
    : chat_dom :=
  {| input_value := input_value d; chat_messages := chat_messages d;
     scrolled := scrolled d; widget_classList := cl;
     toggle_textContent := t |}.

(** The answer to [ai.chats.create]: it throws, or returns a new session
    object, named by [id]. *)
Inductive create_result : Type :=
| CreateThrows (detail : string)
| Created (id : nat).

Module Chat.
Import Js.

Definition model : string := "gemini-3-flash-preview".

Definition systemInstruction : string :=
  "You are the 'Oracle of the Future', an uplifting AI guide for 'The Grand Plan'. Your outlook is bright, clear, and grounded in human flourishing. You are wise, encouraging, and helpful. Keep answers concise but deeply inspiring.".

Definition apology : string :=
  "Apologies, the data link is unstable. Let us try once more.".

(** [ai.chats.create({ model, config })]. *)
Definition chats_create {D} (r : create_result) : js D session :=
  λ d w,
    let w' := log_call (ChatsCreate model systemInstruction) w in
    match r with
    | CreateThrows detail => (Throw (ServiceFailure detail), d, w')
    | Created id => (Normal (Session id model systemInstruction), d, w')
    end.

(** The click listener of the collapse toggle. *)
Definition on_toggle (d : chat_dom) : chat_dom :=
  let '(cl, _) := toggle (widget_classList d) "collapsed" in
  set_widget cl (if contains cl "collapsed" then "↑" else "↓") d.

(** The submit listener. [created] answers [ai.chats.create] if it is
    called, [r] answers [chat.sendMessageStream]. *)
Definition on_submit (created : create_result) (r : stream_result)
    : js chat_dom unit :=
  dom <- get_dom;;
  let message := trim (input_value dom) in
  if negb (truthy message) then ret tt
  else
    (* User Message *)
    let userDiv :=
      set_textContent message
        (with_classList (λ _, ["message"; "user"]) (createElement "div")) in
    modify_dom (with_messages (appendChild userDiv));;
    modify_dom (set_input_value "");;
    modify_dom scroll_to_end;;
    (* Assistant Message Placeholder *)
    dom <- get_dom;;
    let assistantDiv := length (appended (chat_messages dom)) in
    modify_dom
      (with_messages
         (appendChild
            (with_classList (λ _, ["message"; "assistant"; "streaming"])
               (createElement "div"))));;
    try_catch_finally
      (w <- get_world;;
       match chat w with
       | None =>
           s <- chats_create created;;
           modify_world (set_chat s)
       | Some _ => ret tt
       end;;
       w <- get_world;;
       match chat w with
       | None => throw (TypeError "chat is null")
       | Some s =>
           responseStream <- await_stream (SendMessageStream s message) r;;
           modify_dom
             (with_messages (with_child assistantDiv (set_textContent "")));;
           for_await responseStream.1 responseStream.2
             (λ chunk,
                modify_dom
                  (with_messages
                     (with_child assistantDiv (append_textContent chunk)));;
                modify_dom scroll_to_end)
       end)
      (λ err,
         modify_dom
           (with_messages
              (with_child assistantDiv (set_textContent apology))))
      (modify_dom
         (with_messages
            (with_child assistantDiv
               (with_classList (λ cl, remove cl "streaming"))))).

End Chat.

(** ** The page *)

Record page : Type := Page {
  sections : list plan_section;       (* the .plan-section elements *)
  placeholders : list placeholder;    (* the .icon-placeholder elements *)
  vision_text : option element;       (* #vision-text, when it exists *)
  vision_btn : option button;         (* #generate-vision-btn, when it exists *)
  chat_widget : chat_dom;
  globals : world
}.

(** [initialize]: the listeners are wired, and the icons are generated. *)
Definition initialize (answers : nat → image_result) (pg : page) : page :=
  let '(phs, w) := Icons.generateIcons (placeholders pg) answers (globals pg) in
  {| sections := sections pg; placeholders := phs;
     vision_text := vision_text pg; vision_btn := vision_btn pg;
     chat_widget := chat_widget pg; globals := w |}.

(** What the user does once the listeners are wired, with what the service
    answers to the calls of the handler it starts. *)
Inductive event : Type :=
| ClickExplore (i : nat) (r : stream_result)
| ClickVision (r : stream_result)
| TypeChat (text : string)
| SubmitChat (created : create_result) (r : stream_result)
| ClickChatToggle.

Definition click_explore (i : nat) (r : stream_result) (pg : page) : page :=
  match sections pg !! i with
  | Some section =>
      if clickable (sec_button section) then
        match Explore.handleExploreClick (Some section) r (globals pg) with
        | (Some section', w) =>
            {| sections := <[i:=section']> (sections pg);
               placeholders := placeholders pg;
               vision_text := vision_text pg; vision_btn := vision_btn pg;
               chat_widget := chat_widget pg; globals := w |}
        | (None, _) => pg
        end
      else pg
  | None => pg
  end.

Definition click_vision (r : stream_result) (pg : page) : page :=
  match vision_btn pg with
  | Some b =>
      if clickable b then
        let titles := sec_h2 <$> sections pg in
        let '(v, b', w) :=
          Vision.generateGrandVision (vision_text pg) (vision_btn pg)
            titles r (globals pg) in
        {| sections := sections pg; placeholders := placeholders pg;
           vision_text := v; vision_btn := b';
           chat_widget := chat_widget pg; globals := w |}
      else pg
  | None => pg
  end.

Definition with_chat_widget (f : chat_dom → chat_dom) (pg : page) : page :=
  {| sections := sections pg; placeholders := placeholders pg;
     vision_text := vision_text pg; vision_btn := vision_btn pg;
     chat_widget := f (chat_widget pg); globals := globals pg |}.

Definition submit_chat (created : create_result) (r : stream_result)
    (pg : page) : page :=
  let '(_, d, w) := Chat.on_submit created r (chat_widget pg) (globals pg) in
  {| sections := sections pg; placeholders := placeholders pg;
     vision_text := vision_text pg; vision_btn := vision_btn pg;
     chat_widget := d; globals := w |}.

Definition step (pg : page) (e : event) : page :=
  match e with
  | ClickExplore i r => click_explore i r pg
  | ClickVision r => click_vision r pg
  | TypeChat text => with_chat_widget (set_input_value text) pg
  | SubmitChat created r => submit_chat created r pg
  | ClickChatToggle => with_chat_widget Chat.on_toggle pg
  end.

Definition run (pg : page) (events : list event) : page :=
  foldl step pg events.

(** ** Notions of the specification *)

(** The concatenation of the fragments of a stream, in delivery order. *)
Definition concatenation (fragments : list string) : string :=
  foldr String.append "" fragments.

(** The fragments of a stream: the texts of the chunks that carry one, in
    delivery order. *)
Fixpoint fragments (chunks : list (option string)) : list string :=
  match chunks with
  | [] => []
  | Some text :: rest => text :: fragments rest
  | None :: rest => fragments rest
  end.

(** What the loop over a stream has appended once it has gone through
    [chunks]. *)
Definition streamed (chunks : list (option string)) : string :=
  concatenation (Js.ToString <$> chunks).

(** A streaming call fails when the awaited call rejects or the stream
    throws before it completes. *)
Definition stream_fails (r : stream_result) : bool :=
  match r with
  | Rejected _ => true
  | Stream _ (Some _) => true
  | Stream _ None => false
  end.

(** How a stream ends, as a completion. *)
Definition ending (failure : option string) : completion unit :=
  match failure with
  | None => Normal tt
  | Some detail => Throw (ServiceFailure detail)
  end.

(** The call of a first expansion of a section. *)
Definition explore_call (s : plan_section) : api_call :=
  GenerateContentStream Explore.model (Explore.prompt (sec_h2 s) (sec_p s)).

(** The request of the icon fetcher for a placeholder. *)
Definition icon_call (p : placeholder) : api_call :=
  GenerateContent Icons.model
    (Icons.prompt (Js.or_else (ph_dataset_phase p) "Future technology"))
    "1:1".

(** The parts of a response that the icon fetcher goes through, when
    every level down to them is there. *)
Definition parts_read (response : image_response) : option (list part) :=
  candidates ← response_candidates response;
  c ← candidates !! 0;
  ct ← candidate_content c;
  content_parts ct.

(** The first inline payload among the parts. *)
Fixpoint first_inlineData (parts : list part) : option blob :=
  match parts with
  | [] => None
  | part :: rest =>
      match part_inlineData part with
      | Some inlineData => Some inlineData
      | None => first_inlineData rest
      end
  end.

(** The inline image payload of an answer, when it has one. *)
Definition image_payload (r : image_result) : option blob :=
  match r with
  | ImageRejected _ => None
  | ImageOk response => parts_read response ≫= first_inlineData
  end.

(** The resolved state of a placeholder. *)
Inductive resolved : Type := Pending | Image | FallbackGlyph.

#[export] Instance resolved_eq_dec : EqDecision resolved.
Proof. solve_decision. Defined.

Definition shows_image (p : placeholder) : bool :=
  match ph_content p with
  | Container m [_] => bool_decide (m = "")
  | _ => false
  end.

Definition shows_fallback (p : placeholder) : bool :=
  match ph_content p with
  | Container m [] =>
      bool_decide (m = Icons.glyph)
      && bool_decide (ph_fontSize p = Some "24px")
      && bool_decide (ph_color p = Some "#3b82f6")
  | _ => false
  end.

Definition resolved_state (p : placeholder) : resolved :=
  if shows_image p then Image
  else if shows_fallback p then FallbackGlyph
  else Pending.

(** The placeholder with the image made from a payload. *)
Definition with_image (inlineData : blob) (p : placeholder) : placeholder :=
  {| ph_dataset_phase := ph_dataset_phase p;
     ph_content :=
       Container ""
         [Img ("data:image/png;base64," +:+ blob_data inlineData)
              (Js.or_else (ph_dataset_phase p) "Future technology")];
     ph_fontSize := ph_fontSize p; ph_color := ph_color p |}.

(** The placeholder with the fallback glyph and its styling. *)
Definition with_glyph (p : placeholder) : placeholder :=
  {| ph_dataset_phase := ph_dataset_phase p;
     ph_content := Container Icons.glyph [];
     ph_fontSize := Some "24px"; ph_color := Some "#3b82f6" |}.

(** What the icon fetcher leaves in a placeholder for an answer. *)
Definition resolve (r : image_result) (p : placeholder) : placeholder :=
  match r with
  | ImageRejected _ => with_glyph p
  | ImageOk response =>
      match parts_read response with
      | None => with_glyph p
      | Some parts =>
          match first_inlineData parts with
          | Some inlineData => with_image inlineData p
          | None => p
          end
      end
  end.

(** The call of the vision generator. *)
Definition vision_call (titles : list string) : api_call :=
  GenerateContentStream Vision.model (Vision.prompt (Js.join ", " titles)).

(** The text a surface ends with: the streamed text when the stream
    completes, the fallback of the controller when the call fails. *)
Definition final_text (fallback : string) (r : stream_result) : string :=
  match r with
  | Stream chunks None => streamed chunks
  | _ => fallback
  end.

(** The session a submission talks to: the one [chat] holds, or the one
    created for this submission, if the creation does not throw. *)
Definition chat_session (w : world) (created : create_result)
    : option session :=
  match chat w with
  | Some s => Some s
  | None =>
      match created with
      | Created id => Some (Session id Chat.model Chat.systemInstruction)
      | CreateThrows _ => None
      end
  end.

(** The calls of a submission with a message. *)
Definition create_calls (w : world) : list api_call :=
  match chat w with
  | None => [ChatsCreate Chat.model Chat.systemInstruction]
  | Some _ => []
  end.

Definition send_calls (w : world) (created : create_result)
    (message : string) : list api_call :=
  match chat_session w created with
  | Some s => [SendMessageStream s message]
  | None => []
  end.

(** A submission fails when the creation of the session throws or the
    streaming send fails. *)
Definition submission_fails (w : world) (created : create_result)
    (r : stream_result) : bool :=
  match chat_session w created with
  | Some _ => stream_fails r
  | None => true
  end.

(** The text the assistant message ends with. *)
Definition reply_text (w : world) (created : create_result)
    (r : stream_result) : string :=
  match chat_session w created with
  | Some _ => final_text Chat.apology r
  | None => Chat.apology
  end.

(** The number of chunks written to the assistant message. *)
Definition chunks_fed (w : world) (created : create_result)
    (r : stream_result) : nat :=
  match chat_session w created, r with
  | Some _, Stream chunks _ => length chunks
  | _, _ => 0
  end.

(** A call that goes on with the session [s]: it creates no session, and
    if it sends a message, it sends it through [s]. *)
Definition reuses (s : session) (c : api_call) : Prop :=
  match c with
  | ChatsCreate _ _ => False
  | SendMessageStream s' _ => s' = s
  | _ => True
  end.

(** From [w] to [w'] the script goes on with the session [s]: [chat]
    holds [s] in [w'], and every call made in between reuses [s]. *)
Definition goes_on (s : session) (w w' : world) : Prop :=
  chat w' = Some s
  ∧ ∃ new, calls w' = calls w ++ new ∧ Forall (reuses s) new.

(** One click on the learn-more button of a section, and several. *)
Definition click (sw : plan_section * world) (r : stream_result)
    : plan_section * world :=
  let '(_, s', w') := Explore.on_section r sw.1 sw.2 in (s', w').

Definition clicks (sw : plan_section * world) (rs : list stream_result)
    : plan_section * world :=
  foldl click sw rs.

(** The texts of the elements appended to a container. *)
Definition texts (c : container element) : list string :=
  el_textContent <$> appended c.

(** ** A sample page *)

Definition sample_section : plan_section :=
  {| sec_classList := ["plan-section"];
     sec_dataset_content := None;
     sec_h2 := "Phase 1";
     sec_p := "The first step.";
     sec_details := Some (Container "" []);
     sec_button := Button "Explore Frontier" (Some "false") false None |}.

Definition sample_loaded : plan_section :=
  {| sec_classList := ["plan-section"; "expanded"];
     sec_dataset_content := Some "loaded";
     sec_h2 := "Phase 2";
     sec_p := "The second step.";
     sec_details := Some (Container "" [Element "p" [] "Cached text."]);
     sec_button := Button "Seal Frontier" (Some "true") false None |}.

Definition sample_world : world :=
  {| calls := []; console := []; chat := None |}.

Definition sample_placeholders : list placeholder :=
  [Placeholder (Some "Phase 1") (Container "" []) None None;
   Placeholder (Some "Phase 2") (Container "" []) None None;
   Placeholder None (Container "" []) None None].

(** The second request is rejected, the others are answered with a text
    part and an image part. *)
Definition sample_answers (i : nat) : image_result :=
  if i =? 1 then ImageRejected "503"
  else
    ImageOk
      (ImageResponse
         (Some
            [Candidate
               (Some
                  (Content
                     (Some
                        [Part (Some "Here is the icon.") None;
                         Part None (Some (Blob "iVBORw0KGgo="))])))])).

Definition sample_visionText : element :=
  {| el_tag := "p"; el_classList := ["placeholder-text"];
     el_textContent := "The vision awaits." |}.

Definition sample_visionBtn : button :=
  {| btn_textContent := "Generate"; btn_aria_expanded := None;
     btn_disabled := false; btn_display := None |}.

Definition sample_chat : chat_dom :=
  {| input_value := " Hello ";
     chat_messages := Container "" [];
     scrolled := 0;
     widget_classList := [];
     toggle_textContent := "↓" |}.

Definition blank_chat : chat_dom :=
  {| input_value := "   ";
     chat_messages := Container "" [];
     scrolled := 0;
     widget_classList := [];
     toggle_textContent := "↓" |}.

Definition sample_page : page :=
  {| sections := [sample_section; sample_loaded];
     placeholders := sample_placeholders;
     vision_text := Some sample_visionText;
     vision_btn := Some sample_visionBtn;
     chat_widget := sample_chat;
     globals := sample_world |}.

Definition sample_session : session :=
  {| session_id := 7; session_model := Chat.model;
     session_systemInstruction := Chat.systemInstruction |}.

(** ** Further notions *)

(** Whether a section shows its details. *)
Definition expanded (s : plan_section) : bool :=
  Js.contains (sec_classList s) "expanded".

(** An answer on which the icon fetcher ends in its [catch]: the request
    is rejected, or a level down to the parts is missing. *)
Definition answer_fails (r : image_result) : bool :=
  match r with
  | ImageRejected _ => true
  | ImageOk response =>
      match parts_read response with
      | None => true
      | Some _ => false
      end
  end.

(** A message whose reply is no longer being streamed. *)
Definition settled (m : element) : Prop := "streaming" ∉ el_classList m.

(** A section without a details container, and a page without the vision
    text. *)
Definition bare_section : plan_section :=
  {| sec_classList := ["plan-section"];
     sec_dataset_content := None;
     sec_h2 := "Phase 3";
     sec_p := "The third step.";
     sec_details := None;
     sec_button := Button "Explore Frontier" (Some "false") false None |}.

Definition page_without_vision_text : page :=
  {| sections := [sample_section; bare_section];
     placeholders := sample_placeholders;
     vision_text := None;
     vision_btn := Some sample_visionBtn;
     chat_widget := sample_chat;
     globals := sample_world |}.

(** ** Tactics *)

(** [js_run] runs the statements of a handler up to the next test or loop. *)
Ltac js_run :=
  repeat (progress
    (unfold mbind, js_bind, mret, js_ret, bind, ret, throw, get_dom,
       modify_dom, get_world, modify_world, try_catch, try_catch_finally,
       console_error, await_stream;
     cbn)).

(** [dom_run] performs the writes to the DOM nodes, innermost first. *)
Ltac dom_run :=
  cbv beta iota zeta delta
    [with_details with_button set_sec_classList set_sec_dataset_content
     sec_classList sec_dataset_content sec_h2 sec_p sec_details sec_button
     set_btn_textContent set_btn_aria_expanded set_btn_disabled
     set_btn_display btn_textContent btn_aria_expanded btn_disabled
     btn_display
     set_innerHTML appendChild with_child markup appended
     with_classList set_textContent append_textContent createElement
     el_tag el_classList el_textContent
     with_ph_content set_ph_fontSize set_ph_color
     ph_dataset_phase ph_content ph_fontSize ph_color
     with_visionText with_btn visionText btn
     set_input_value with_messages scroll_to_end set_widget
     input_value chat_messages scrolled widget_classList toggle_textContent
     fmap option_fmap option_map alter list_alter];
  cbn.

(** The writes to a section, up to the writes to its nodes. *)
Ltac section_run :=
  cbv beta iota zeta delta
    [with_details with_button set_sec_classList set_sec_dataset_content
     sec_classList sec_dataset_content sec_h2 sec_p sec_details sec_button
     fmap option_fmap option_map].

(** [chat_run] performs the writes of the submit listener, up to the
    writes through the reference to the assistant message. *)
Ltac chat_run :=
  cbv beta iota zeta delta
    [set_input_value with_messages scroll_to_end set_widget
     input_value chat_messages scrolled widget_classList toggle_textContent
     set_innerHTML appendChild with_child markup appended
     with_classList set_textContent append_textContent createElement
     el_tag el_classList el_textContent];
  cbn.

(** * Proofs *)

(** ** Strings and token lists *)

Lemma append_empty_r (s : string) : s +:+ "" = s.
Proof.
  induction s as [|x s IH]; [done|].
  change (String x (s +:+ "") = String x s). by f_equal.
Qed.

Lemma append_assoc (a b c : string) : (a +:+ b) +:+ c = a +:+ (b +:+ c).
Proof.
  induction a as [|x a IH]; [done|].
  change (String x ((a +:+ b) +:+ c) = String x (a +:+ (b +:+ c))).
  by f_equal.
Qed.

Lemma or_else_empty (s : string) : Js.or_else (Some s) "" = s.
Proof. by destruct s. Qed.

Lemma contains_false (cl : list string) (c : string) :
  c ∉ cl → Js.contains cl c = false.
Proof. intros H. unfold Js.contains. by apply bool_decide_eq_false. Qed.

Lemma contains_true (cl : list string) (c : string) :
  c ∈ cl → Js.contains cl c = true.
Proof. intros H. unfold Js.contains. by apply bool_decide_eq_true. Qed.

Lemma not_in_remove (cl : list string) (c : string) : c ∉ Js.remove cl c.
Proof.
  unfold Js.remove. intros [Hne _]%list_elem_of_filter. by apply Hne.
Qed.

Lemma streaming_mark_cleared :
  Js.remove (Js.add [] "streaming") "streaming" = [].
Proof. reflexivity. Qed.

(** ** Streams *)

(** A loop whose body only writes to the DOM writes chunk after chunk, in
    the order of delivery, and ends as the stream ends. *)
Lemma for_await_writes {D} (g : option string → D → D)
    (body : option string → js D unit)
    (chunks : list (option string)) (failure : option string) (d : D)
    (w : world) :
  (∀ chunk d w, body chunk d w = (Normal tt, g chunk d, w)) →
  for_await chunks failure body d w
  = (ending failure, foldl (λ d chunk, g chunk d) d chunks, w).
Proof.
  intros Hbody. revert d.
  induction chunks as [|chunk rest IH]; intros d; simpl.
  - by destruct failure.
  - unfold bind. rewrite Hbody. apply IH.
Qed.

(** Appending the chunks one by one appends what they convert to, in
    order. *)
Lemma feed_element (chunks : list (option string)) (e : element) :
  foldl (λ e chunk, append_textContent chunk e) e chunks
  = set_textContent (el_textContent e +:+ streamed chunks) e.
Proof.
  revert e. induction chunks as [|chunk rest IH]; intros e; cbn.
  - rewrite append_empty_r. by destruct e.
  - rewrite IH. unfold append_textContent, set_textContent. simpl.
    by rewrite append_assoc.
Qed.

(** The same through a reference to a node of a container. *)
Lemma feed_child (i : nat) (chunks : list (option string))
    (c : container element) :
  foldl (λ c chunk, with_child i (append_textContent chunk) c) c chunks
  = with_child i
      (λ e, set_textContent (el_textContent e +:+ streamed chunks) e) c.
Proof.
  revert c. induction chunks as [|chunk rest IH]; intros c; cbn.
  - destruct c as [m l]. unfold with_child. simpl. f_equal.
    symmetry. apply list_alter_id. intros e.
    rewrite append_empty_r. by destruct e.
  - rewrite IH. destruct c as [m l]. unfold with_child. simpl. f_equal.
    rewrite list_alter_alter_eq. apply list_alter_ext; [|done].
    intros e _. simpl. by rewrite append_assoc.
Qed.

(** Writes to the details container of a section, chunk after chunk. *)
Lemma feed_details
    (g : option string → container element → container element)
    (chunks : list (option string)) (s : plan_section) :
  foldl (λ s chunk, with_details (g chunk) s) s chunks
  = with_details (λ c, foldl (λ c chunk, g chunk c) c chunks) s.
Proof.
  revert s. induction chunks as [|chunk rest IH]; intros s; cbn.
  - by destruct s as [? ? ? ? [?|] ?].
  - rewrite IH. by destruct s as [? ? ? ? [?|] ?].
Qed.

(** ** Section expansion *)

Lemma on_section_no_details s w r :
  sec_details s = None → Explore.on_section r s w = (Normal tt, s, w).
Proof. intros H. unfold Explore.on_section. js_run. by rewrite H. Qed.

(** A first expansion whose stream completes. *)
Lemma on_section_success s w c chunks :
  sec_details s = Some c →
  "expanded" ∉ sec_classList s →
  sec_dataset_content s ≠ Some "loaded" →
  Explore.on_section (Stream chunks None) s w
  = (Normal tt,
     {| sec_classList := sec_classList s ++ ["expanded"];
        sec_dataset_content := Some "loaded";
        sec_h2 := sec_h2 s; sec_p := sec_p s;
        sec_details :=
          Some (Container "" [Element "p" [] (streamed chunks)]);
        sec_button :=
          {| btn_textContent := "Seal Frontier";
             btn_aria_expanded := Some "true";
             btn_disabled := false;
             btn_display := btn_display (sec_button s) |} |},
     log_call (explore_call s) w).
Proof.
  intros Hd Hcl Hnl.
  unfold Explore.on_section, Explore.toggle_expanded, Js.toggle. js_run.
  rewrite Hd, (contains_false _ _ Hcl). js_run.
  rewrite (bool_decide_eq_false_2 _ Hnl). js_run.
  rewrite (for_await_writes
             (λ chunk, with_details (with_child 0 (append_textContent chunk))))
    by done.
  rewrite feed_details, !or_else_empty.
  destruct s as [cl dc h2 p dt b]; simpl in *; subst dt. section_run.
  rewrite feed_child. dom_run. by rewrite streaming_mark_cleared.
Qed.

(** A first expansion whose call fails. *)
Lemma on_section_failure s w c r :
  sec_details s = Some c →
  "expanded" ∉ sec_classList s →
  sec_dataset_content s ≠ Some "loaded" →
  stream_fails r = true →
  ∃ detail,
    Explore.on_section r s w
    = (Normal tt,
       {| sec_classList := sec_classList s ++ ["expanded"];
          sec_dataset_content := sec_dataset_content s;
          sec_h2 := sec_h2 s; sec_p := sec_p s;
          sec_details := Some (Container Explore.error_markup []);
          sec_button :=
            {| btn_textContent := "Seal Frontier";
               btn_aria_expanded := Some "true";
               btn_disabled := false;
               btn_display := btn_display (sec_button s) |} |},
       log_error "Error:" (ServiceFailure detail)
         (log_call (explore_call s) w)).
Proof.
  intros Hd Hcl Hnl Hr.
  unfold Explore.on_section, Explore.toggle_expanded, Js.toggle. js_run.
  rewrite Hd, (contains_false _ _ Hcl). js_run.
  rewrite (bool_decide_eq_false_2 _ Hnl). js_run.
  destruct r as [detail|chunks [detail|]]; [| |done]; exists detail; js_run.
  - rewrite !or_else_empty.
    destruct s as [cl dc h2 p dt b]; simpl in *; subst dt. by dom_run.
  - rewrite (for_await_writes
               (λ chunk, with_details (with_child 0 (append_textContent chunk))))
      by done.
    rewrite !or_else_empty. cbn.
    destruct s as [cl dc h2 p dt b]; simpl in *; subst dt. 
    rewrite feed_details. by dom_run.
Qed.

(** An expansion of a loaded section. *)
Lemma on_section_loaded s w c r :
  sec_details s = Some c →
  "expanded" ∉ sec_classList s →
  sec_dataset_content s = Some "loaded" →
  Explore.on_section r s w
  = (Normal tt,
     {| sec_classList := sec_classList s ++ ["expanded"];
        sec_dataset_content := sec_dataset_content s;
        sec_h2 := sec_h2 s; sec_p := sec_p s;
        sec_details := sec_details s;
        sec_button :=
          {| btn_textContent := "Seal Frontier";
             btn_aria_expanded := Some "true";
             btn_disabled := btn_disabled (sec_button s);
             btn_display := btn_display (sec_button s) |} |},
     w).
Proof.
  intros Hd Hcl Hl.
  unfold Explore.on_section, Explore.toggle_expanded, Js.toggle. js_run.
  rewrite Hd, (contains_false _ _ Hcl). js_run.
  rewrite (bool_decide_eq_true_2 _ Hl). js_run.
  destruct s as [cl dc h2 p dt b]; simpl in *; subst dt. by dom_run.
Qed.

(** A collapse. *)
Lemma on_section_collapse s w c r :
  sec_details s = Some c →
  "expanded" ∈ sec_classList s →
  Explore.on_section r s w
  = (Normal tt,
     {| sec_classList := Js.remove (sec_classList s) "expanded";
        sec_dataset_content := sec_dataset_content s;
        sec_h2 := sec_h2 s; sec_p := sec_p s;
        sec_details := sec_details s;
        sec_button :=
          {| btn_textContent := "Explore Frontier";
             btn_aria_expanded := Some "false";
             btn_disabled := btn_disabled (sec_button s);
             btn_display := btn_display (sec_button s) |} |},
     w).
Proof.
  intros Hd Hcl.
  unfold Explore.on_section, Explore.toggle_expanded, Js.toggle. js_run.
  rewrite Hd, (contains_true _ _ Hcl). js_run.
  destruct s as [cl dc h2 p dt b]; simpl in *; subst dt. by dom_run.
Qed.

(** A click on a loaded section calls nothing and keeps the details. *)
Lemma click_loaded s w r :
  sec_dataset_content s = Some "loaded" →
  (click (s, w) r).2 = w
  ∧ sec_details (click (s, w) r).1 = sec_details s
  ∧ sec_dataset_content (click (s, w) r).1 = Some "loaded".
Proof.
  intros Hl. unfold click. simpl.
  destruct (sec_details s) as [c|] eqn:Hd.
  - destruct (decide ("expanded" ∈ sec_classList s)) as [Hin|Hout].
    + by rewrite (on_section_collapse s w c r Hd Hin).
    + by rewrite (on_section_loaded s w c r Hd Hout Hl).
  - by rewrite (on_section_no_details s w r Hd).
Qed.

Lemma clicks_loaded rs : ∀ s w,
  sec_dataset_content s = Some "loaded" →
  (clicks (s, w) rs).2 = w
  ∧ sec_details (clicks (s, w) rs).1 = sec_details s
  ∧ sec_dataset_content (clicks (s, w) rs).1 = Some "loaded".
Proof.
  induction rs as [|r rs IH]; intros s w Hl; [done|].
  destruct (click_loaded s w r Hl) as (Hw & Hd & Hl').
  unfold clicks. simpl. fold (clicks (click (s, w) r) rs).
  destruct (click (s, w) r) as [s1 w1]. simpl in *. subst w1.
  destruct (IH s1 w Hl') as (? & ? & ?). by rewrite <- Hd.
Qed.

(** C1. Once the content of a section is loaded, no sequence of toggles
    makes a generation call, and the details keep the cached text, which
    an expansion shows again; the first expansion of a section that is not
    loaded makes exactly one generation call, and when that call succeeds
    the section is loaded with the streamed text. *)
Theorem C1_cache_invariant
    (s : plan_section) (w : world) (r : stream_result)
    (rs : list stream_result) :
  (sec_dataset_content s = Some "loaded" →
     calls (clicks (s, w) rs).2 = calls w
     ∧ sec_details (clicks (s, w) rs).1 = sec_details s
     ∧ sec_dataset_content (clicks (s, w) rs).1 = Some "loaded")
  ∧
  (sec_dataset_content s = Some "loaded" →
   "expanded" ∉ sec_classList s →
   is_Some (sec_details s) →
     "expanded" ∈ sec_classList (click (s, w) r).1
     ∧ sec_details (click (s, w) r).1 = sec_details s
     ∧ (click (s, w) r).2 = w)
  ∧
  (sec_dataset_content s ≠ Some "loaded" →
   "expanded" ∉ sec_classList s →
   is_Some (sec_details s) →
     calls (click (s, w) r).2 = calls w ++ [explore_call s]
     ∧ (stream_fails r = false →
          sec_dataset_content (click (s, w) r).1 = Some "loaded"
          ∧ ∃ chunks,
              r = Stream chunks None
              ∧ texts <$> sec_details (click (s, w) r).1
                = Some [streamed chunks])).
Proof.
  split; [|split].
  - intros Hl. destruct (clicks_loaded rs s w Hl) as (-> & ? & ?). done.
  - intros Hl Hcl [c Hd]. unfold click. simpl.
    rewrite (on_section_loaded s w c r Hd Hcl Hl). simpl.
    split; [|done]. apply elem_of_app. right. by apply list_elem_of_singleton.
  - intros Hnl Hcl [c Hd]. unfold click. simpl.
    destruct (stream_fails r) eqn:Hr.
    + destruct (on_section_failure s w c r Hd Hcl Hnl Hr) as [detail ->].
      done.
    + destruct r as [detail|chunks [detail|]]; try done.
      rewrite (on_section_success s w c chunks Hd Hcl Hnl). simpl.
      split; [done|]. intros _. split; [done|]. by exists chunks.
Qed.

(** C2. When the generation call of a first expansion fails, the section
    stays not loaded, the details show the fixed error message, the button
    is enabled again, and after the collapse that follows, the next
    expansion makes exactly one new generation call. *)
Theorem C2_retry_by_reentry
    (s : plan_section) (w : world) (c : container element)
    (r r2 r3 : stream_result) :
  sec_details s = Some c →
  "expanded" ∉ sec_classList s →
  sec_dataset_content s ≠ Some "loaded" →
  stream_fails r = true →
  let failed := click (s, w) r in
  let collapsed := click failed r2 in
  let retried := click collapsed r3 in
  sec_dataset_content failed.1 = sec_dataset_content s
  ∧ sec_details failed.1 = Some (Container Explore.error_markup [])
  ∧ btn_disabled (sec_button failed.1) = false
  ∧ calls failed.2 = calls w ++ [explore_call s]
  ∧ calls collapsed.2 = calls failed.2
  ∧ sec_dataset_content collapsed.1 = sec_dataset_content s
  ∧ calls retried.2 = calls failed.2 ++ [explore_call s].
Proof.
  intros Hd Hcl Hnl Hr. cbv zeta.
  destruct (on_section_failure s w c r Hd Hcl Hnl Hr) as [detail Hfail].
  assert (click (s, w) r = (_, _)) as ->
    by (unfold click; simpl; by rewrite Hfail).
  set (s1 := PlanSection _ _ _ _ _ _). set (w1 := log_error _ _ _).
  assert (Hin : "expanded" ∈ sec_classList s1).
  { simpl. apply elem_of_app. right. by apply list_elem_of_singleton. }
  assert (click (s1, w1) r2 = (_, _)) as ->
    by (unfold click; simpl;
        by rewrite (on_section_collapse s1 w1 _ r2 eq_refl Hin)).
  set (s2 := PlanSection _ _ _ _ _ _).
  assert (Hout : "expanded" ∉ sec_classList s2) by apply not_in_remove.
  unfold click. simpl.
  destruct (stream_fails r3) eqn:Hr3.
  - destruct (on_section_failure s2 w1 _ r3 eq_refl Hout Hnl Hr3)
      as [detail3 ->].
    done.
  - destruct r3 as [detail3|chunks [detail3|]]; try done.
    by rewrite (on_section_success s2 w1 _ chunks eq_refl Hout Hnl).
Qed.

(** ** Vision *)

Lemma feed_visionText (chunks : list (option string)) (d : vision_dom) :
  foldl (λ d chunk, with_visionText (append_textContent chunk) d) d chunks
  = with_visionText
      (λ e, set_textContent (el_textContent e +:+ streamed chunks) e) d.
Proof.
  revert d. induction chunks as [|chunk rest IH]; intros [[tag cl t] b].
  - dom_run. by rewrite append_empty_r.
  - cbn. rewrite IH. dom_run.
    change (streamed (chunk :: rest))
      with (Js.ToString chunk +:+ streamed rest).
    by rewrite append_assoc.
Qed.

(** What [generateGrandVision] leaves behind, whatever the service
    answers. *)
Lemma on_elements_result titles r v b w :
  Vision.on_elements titles r (VisionDom v b) w
  = (Normal tt,
     {| visionText :=
          {| el_tag := el_tag v;
             el_classList :=
               Js.remove
                 (Js.add (Js.remove (el_classList v) "placeholder-text")
                    "streaming")
                 "streaming";
             el_textContent := final_text Vision.fallback r |};
        btn :=
          {| btn_textContent := btn_textContent b;
             btn_aria_expanded := btn_aria_expanded b;
             btn_disabled := true;
             btn_display := Some "none" |} |},
     log_call (vision_call titles) w).
Proof.
  unfold Vision.on_elements. js_run.
  destruct v as [tag cl text], b as [bt ba bd bs].
  destruct r as [detail|chunks failure]; js_run; [by dom_run|].
  rewrite (for_await_writes
             (λ chunk, with_visionText (append_textContent chunk))) by done.
  rewrite feed_visionText.
  destruct failure as [detail|]; js_run; by dom_run.
Qed.

(** A click on the vision button that the browser delivers. *)
Lemma click_vision_result pg v b r :
  vision_text pg = Some v →
  vision_btn pg = Some b →
  clickable b = true →
  click_vision r pg
  = {| sections := sections pg; placeholders := placeholders pg;
       vision_text :=
         Some
           {| el_tag := el_tag v;
              el_classList :=
                Js.remove
                  (Js.add (Js.remove (el_classList v) "placeholder-text")
                     "streaming")
                  "streaming";
              el_textContent := final_text Vision.fallback r |};
       vision_btn :=
         Some
           {| btn_textContent := btn_textContent b;
              btn_aria_expanded := btn_aria_expanded b;
              btn_disabled := true;
              btn_display := Some "none" |};
       chat_widget := chat_widget pg;
       globals := log_call (vision_call (sec_h2 <$> sections pg)) (globals pg)
    |}.
Proof.
  intros Hv Hb Hc. unfold click_vision, Vision.generateGrandVision.
  by rewrite Hb, Hc, Hv, on_elements_result.
Qed.

(** No handler of the page writes to a vision button that cannot be
    clicked, nor to the vision text next to it. *)
Lemma step_keeps_vision pg e b :
  vision_btn pg = Some b →
  clickable b = false →
  vision_btn (step pg e) = Some b ∧ vision_text (step pg e) = vision_text pg.
Proof.
  intros Hb Hc. destruct e as [i r|r|text|created r|]; simpl.
  - unfold click_explore.
    destruct (sections pg !! i) as [s|]; [|done].
    destruct (clickable (sec_button s)); [|done].
    by destruct (Explore.handleExploreClick _ _ _) as [[s'|] w'].
  - unfold click_vision. by rewrite Hb, Hc.
  - done.
  - unfold submit_chat. by destruct (Chat.on_submit _ _ _ _) as [[? ?] ?].
  - done.
Qed.

Lemma run_keeps_vision events : ∀ pg b,
  vision_btn pg = Some b →
  clickable b = false →
  vision_btn (run pg events) = Some b
  ∧ vision_text (run pg events) = vision_text pg.
Proof.
  induction events as [|e events IH]; intros pg b Hb Hc; [done|].
  destruct (step_keeps_vision pg e b Hb Hc) as [Hb' Hv'].
  unfold run. simpl. fold (run (step pg e) events).
  destruct (IH (step pg e) b Hb' Hc) as [-> ->]. done.
Qed.

(** C8. Once a click has started the vision generator on a page that has
    the vision text and the button, the button is hidden, whether the
    stream completed or failed; the streaming mark is cleared; on failure
    the text is the fallback sentence of the vision generator, which is not
    the error message of the sections; and whatever happens on the page
    afterwards, the button stays hidden and disabled, so that no click
    starts the generator again. *)
Theorem C8_vision_one_shot
    (pg : page) (v : element) (b : button) (r r' : stream_result)
    (events : list event) :
  vision_text pg = Some v →
  vision_btn pg = Some b →
  clickable b = true →
  let resolved := step pg (ClickVision r) in
  let later := run resolved events in
  ∃ v' b',
    vision_text resolved = Some v' ∧ vision_btn resolved = Some b'
    ∧ btn_display b' = Some "none"
    ∧ ("streaming" ∉ el_classList v')
    ∧ (stream_fails r = true → el_textContent v' = Vision.fallback)
    ∧ Vision.fallback ≠ Explore.error_markup
    ∧ vision_text later = Some v' ∧ vision_btn later = Some b'
    ∧ clickable b' = false
    ∧ step later (ClickVision r') = later.
Proof.
  intros Hv Hb Hc. cbv zeta.
  change (step pg (ClickVision r)) with (click_vision r pg).
  rewrite (click_vision_result pg v b r Hv Hb Hc).
  set (pg1 := Page _ _ _ _ _ _).
  eexists _, _. split; [reflexivity|]. split; [reflexivity|].
  split; [done|]. split; [apply not_in_remove|].
  split; [by destruct r as [?|? [?|]]|]. split; [done|].
  destruct (run_keeps_vision events pg1 _ eq_refl eq_refl) as [Hb' Hv'].
  split; [by rewrite Hv'|]. split; [done|]. split; [done|].
  simpl. unfold click_vision. by rewrite Hb'.
Qed.

(** ** Icons *)

(** The loop over the parts stops at the first inline payload. *)
Lemma for_parts_result name parts p w :
  Icons.for_parts name parts p w
  = (Normal tt,
     match first_inlineData parts with
     | Some inlineData =>
         with_ph_content
           (λ _, Container ""
                   [Img ("data:image/png;base64," +:+ blob_data inlineData)
                        name]) p
     | None => p
     end,
     w).
Proof.
  induction parts as [|part rest IH]; [done|]. simpl.
  destruct (part_inlineData part) as [inlineData|]; [|done].
  js_run. destruct p. by dom_run.
Qed.

(** The four ways a placeholder is handled. *)
Lemma on_placeholder_rejected p w detail :
  Icons.on_placeholder (ImageRejected detail) p w
  = (Normal tt, with_glyph p,
     log_error "Icon generation failed:" (ServiceFailure detail)
       (log_call (icon_call p) w)).
Proof. unfold Icons.on_placeholder. js_run. destruct p. by dom_run. Qed.

Lemma on_placeholder_malformed p w response :
  parts_read response = None →
  ∃ detail,
    Icons.on_placeholder (ImageOk response) p w
    = (Normal tt, with_glyph p,
       log_error "Icon generation failed:" (TypeError detail)
         (log_call (icon_call p) w)).
Proof.
  intros Hparts. unfold Icons.on_placeholder, Icons.response_parts.
  unfold parts_read in Hparts. js_run.
  destruct response as [[candidates|]]; simpl in *;
    [|eexists; js_run; destruct p; by dom_run].
  destruct (candidates !! 0) as [[[[[parts|]]|]]|]; simpl in *;
    try done; eexists; js_run; destruct p; by dom_run.
Qed.

Lemma on_placeholder_parts p w response parts :
  parts_read response = Some parts →
  Icons.on_placeholder (ImageOk response) p w
  = (Normal tt,
     match first_inlineData parts with
     | Some inlineData => with_image inlineData p
     | None => p
     end,
     log_call (icon_call p) w).
Proof.
  intros Hparts. unfold Icons.on_placeholder, Icons.response_parts.
  unfold parts_read in Hparts. js_run.
  destruct response as [[candidates|]]; simpl in *; [|done].
  destruct (candidates !! 0) as [[[[[parts'|]]|]]|]; simpl in *; try done.
  injection Hparts as ->. js_run. rewrite for_parts_result.
  destruct (first_inlineData parts); destruct p; by dom_run.
Qed.

(** The body of the loop never throws: the fetcher goes on with the next
    placeholder. *)
Lemma on_placeholder_resolves r p w :
  ∃ w', Icons.on_placeholder r p w = (Normal tt, resolve r p, w').
Proof.
  destruct r as [detail|response]; simpl.
  - eexists. apply on_placeholder_rejected.
  - destruct (parts_read response) as [parts|] eqn:Hparts.
    + eexists. by apply on_placeholder_parts.
    + destruct (on_placeholder_malformed p w response Hparts) as [detail ->].
      by eexists.
Qed.

Lemma generateIcons_from_resolves answers phs : ∀ i w,
  (Icons.generateIcons_from i phs answers w).1
  = imap (λ j, resolve (answers (i + j))) phs.
Proof.
  induction phs as [|p phs IH]; intros i w; [done|]. simpl.
  destruct (on_placeholder_resolves (answers i) p w) as [w' ->].
  specialize (IH (S i) w').
  destruct (Icons.generateIcons_from (S i) phs answers w') as [rest w''].
  simpl in *. rewrite IH, Nat.add_0_r. f_equal.
  apply imap_ext. intros j q _. simpl. f_equal. f_equal. lia.
Qed.

(** Counting the nodes of a list that satisfy a predicate which holds at
    one position only, or everywhere but at one position. *)
Lemma filter_nowhere {A} (P : A → Prop) `{!∀ x, Decision (P x)}
    (l : list A) :
  (∀ j x, l !! j = Some x → ¬ P x) → filter P l = [].
Proof.
  induction l as [|x l IH]; intros Hall; [done|].
  rewrite filter_cons_False by apply (Hall 0 x eq_refl).
  apply IH. intros j y Hj. apply (Hall (S j) y Hj).
Qed.

Lemma filter_everywhere {A} (P : A → Prop) `{!∀ x, Decision (P x)}
    (l : list A) :
  (∀ j x, l !! j = Some x → P x) → filter P l = l.
Proof.
  induction l as [|x l IH]; intros Hall; [done|].
  rewrite filter_cons_True by apply (Hall 0 x eq_refl).
  f_equal. apply IH. intros j y Hj. apply (Hall (S j) y Hj).
Qed.

Lemma count_at_one {A} (P : A → Prop) `{!∀ x, Decision (P x)}
    (l : list A) : ∀ k,
  k < length l →
  (∀ j x, l !! j = Some x → P x ↔ j = k) →
  length (filter P l) = 1.
Proof.
  induction l as [|x l IH]; intros k Hk Hall; simpl in Hk; [lia|].
  destruct k as [|k].
  - rewrite filter_cons_True by (by apply (Hall 0 x eq_refl)).
    rewrite filter_nowhere; [done|].
    intros j y Hj HP. by apply (Hall (S j) y Hj) in HP.
  - rewrite filter_cons_False
      by (intros HP; by apply (Hall 0 x eq_refl) in HP).
    apply (IH k); [lia|]. intros j y Hj.
    rewrite (Hall (S j) y Hj). lia.
Qed.

Lemma count_but_one {A} (P : A → Prop) `{!∀ x, Decision (P x)}
    (l : list A) : ∀ k,
  k < length l →
  (∀ j x, l !! j = Some x → P x ↔ j ≠ k) →
  length (filter P l) = length l - 1.
Proof.
  induction l as [|x l IH]; intros k Hk Hall; simpl in Hk; [lia|].
  destruct k as [|k].
  - rewrite filter_cons_False
      by (intros HP; by apply (Hall 0 x eq_refl) in HP).
    rewrite filter_everywhere; [simpl; lia|].
    intros j y Hj. by apply (Hall (S j) y Hj).
  - rewrite filter_cons_True by (by apply (Hall 0 x eq_refl)).
    simpl. rewrite (IH k); [lia|lia|]. intros j y Hj.
    rewrite (Hall (S j) y Hj). lia.
Qed.

Lemma resolved_state_glyph p : resolved_state (with_glyph p) = FallbackGlyph.
Proof. reflexivity. Qed.

Lemma resolved_state_image inlineData p :
  resolved_state (with_image inlineData p) = Image.
Proof. reflexivity. Qed.

(** C4 (the code departs from it). A response whose parts carry no inline
    payload leaves the placeholder as it was: no image, no fallback glyph,
    no styling, nothing on the console. *)
Theorem C4_no_payload_left_pending (p : placeholder) (w : world)
    (text : string) :
  let response :=
    ImageResponse
      (Some [Candidate (Some (Content (Some [Part (Some text) None])))]) in
  Icons.on_placeholder (ImageOk response) p w
  = (Normal tt, p, log_call (icon_call p) w).
Proof.
  intros response.
  by rewrite (on_placeholder_parts p w response [Part (Some text) None]).
Qed.

(** C5. When the request of one placeholder is rejected and every other
    answer carries an inline image, all the placeholders are processed: the
    one whose request was rejected shows the fallback glyph, each of the
    others shows an image, which makes N - 1 images and one glyph. *)
Theorem C5_failure_does_not_block_siblings
    (phs : list placeholder) (answers : nat → image_result) (k : nat)
    (w : world) :
  k < length phs →
  (∃ detail, answers k = ImageRejected detail) →
  (∀ j, j < length phs → j ≠ k → is_Some (image_payload (answers j))) →
  let resolved := (Icons.generateIcons phs answers w).1 in
  length resolved = length phs
  ∧ (∀ j p, resolved !! j = Some p →
       resolved_state p = if decide (j = k) then FallbackGlyph else Image)
  ∧ length (filter (λ p, resolved_state p = Image) resolved)
    = length phs - 1
  ∧ length (filter (λ p, resolved_state p = FallbackGlyph) resolved) = 1.
Proof.
  intros Hk [detail Hrej] Himg resolved.
  assert (Hlen : length resolved = length phs).
  { unfold resolved, Icons.generateIcons.
    by rewrite generateIcons_from_resolves, length_imap. }
  assert (Hstate : ∀ j p, resolved !! j = Some p →
            resolved_state p = if decide (j = k) then FallbackGlyph else Image).
  { intros j p. unfold resolved, Icons.generateIcons.
    rewrite generateIcons_from_resolves, list_lookup_imap. simpl.
    destruct (phs !! j) as [q|] eqn:Hq; [|done]. intros [= <-].
    apply lookup_lt_Some in Hq. case_decide as Hjk.
    - subst j. by rewrite Hrej.
    - destruct (Himg j Hq Hjk) as [inlineData Hpay].
      destruct (answers j) as [?|response]; [done|]. simpl in *.
      destruct (parts_read response) as [parts|]; [|done]. simpl in Hpay.
      by rewrite Hpay. }
  split; [done|]. split; [done|]. split.
  - rewrite <- Hlen. apply (count_but_one _ _ k); [lia|].
    intros j p Hj. rewrite (Hstate j p Hj). by case_decide.
  - apply (count_at_one _ _ k); [lia|].
    intros j p Hj. rewrite (Hstate j p Hj). by case_decide.
Qed.

(** ** Chat *)

Lemma alter_last {A} (f : A → A) (l : list A) (x : A) :
  alter f (length l) (l ++ [x]) = l ++ [f x].
Proof. by rewrite <- (Nat.add_0_r (length l)), alter_app_r. Qed.

Lemma assistant_mark_cleared :
  Js.remove ["message"; "assistant"; "streaming"] "streaming"
  = ["message"; "assistant"].
Proof. reflexivity. Qed.

Lemma feed_chat (i : nat) (chunks : list (option string)) (d : chat_dom) :
  foldl
    (λ d chunk,
       scroll_to_end
         (with_messages (with_child i (append_textContent chunk)) d))
    d chunks
  = {| input_value := input_value d;
       chat_messages :=
         with_child i
           (λ e, set_textContent (el_textContent e +:+ streamed chunks) e)
           (chat_messages d);
       scrolled := scrolled d + length chunks;
       widget_classList := widget_classList d;
       toggle_textContent := toggle_textContent d |}.
Proof.
  rewrite <- feed_child. revert d.
  induction chunks as [|chunk rest IH]; intros [iv c sc wc tc]; cbn.
  - by rewrite Nat.add_0_r.
  - rewrite IH. cbn. f_equal. lia.
Qed.

(** What a submission with a message leaves behind. *)
Lemma on_submit_result created r d w message :
  Js.trim (input_value d) = message →
  message ≠ "" →
  Chat.on_submit created r d w
  = (Normal tt,
     {| input_value := "";
        chat_messages :=
          Container (markup (chat_messages d))
            (appended (chat_messages d)
             ++ [Element "div" ["message"; "user"] message;
                 Element "div" ["message"; "assistant"]
                   (reply_text w created r)]);
        scrolled := S (scrolled d) + chunks_fed w created r;
        widget_classList := widget_classList d;
        toggle_textContent := toggle_textContent d |},
     {| calls := calls w ++ create_calls w ++ send_calls w created message;
        console := console w;
        chat := chat_session w created |}).
Proof.
  intros Htrim Hne. destruct d as [iv [m l] sc wc tc]. simpl in Htrim.
  unfold Chat.on_submit. js_run. rewrite Htrim.
  destruct message as [|a rest]; [done|]. js_run.
  unfold reply_text, chunks_fed, send_calls, create_calls, chat_session.
  assert (Hend : ∀ (u a' : element) (ws ws' : world) sc',
            ws = ws' →
            (Normal tt,
             ChatDom "" (Container m ((l ++ [u]) ++ [a'])) sc' wc tc, ws)
            = (Normal tt, ChatDom "" (Container m (l ++ [u; a'])) sc' wc tc,
               ws')).
  { intros u a' ws ws' sc' ->. by rewrite <- app_assoc. }
  assert (Hcalls : ∀ (cs : list api_call) c1 c2,
            (cs ++ [c1]) ++ [c2] = cs ++ [c1; c2]).
  { intros. by rewrite <- app_assoc. }
  destruct w as [cs co [s|]]; [|destruct created as [detail|id]];
    js_run;
    try (destruct r as [detail'|chunks failure]; js_run;
         [|rewrite (for_await_writes
                      (λ chunk d,
                         scroll_to_end
                           (with_messages
                              (with_child _ (append_textContent chunk)) d)))
             by done;
           rewrite feed_chat; destruct failure as [detail'|]; js_run]);
    chat_run; rewrite !alter_last; chat_run;
    rewrite assistant_mark_cleared; unfold log_call, set_chat; cbn;
    rewrite ?Hcalls, ?Nat.add_0_r; by apply Hend.
Qed.

Lemma on_submit_empty created r d w :
  Js.trim (input_value d) = "" →
  Chat.on_submit created r d w = (Normal tt, d, w).
Proof. intros H. unfold Chat.on_submit. js_run. by rewrite H. Qed.

(** C6. A submission whose trimmed text is not empty appends exactly two
    messages to the transcript, a user message with that text and then an
    assistant message, and clears the input; a submission whose trimmed
    text is empty changes nothing on the page and calls nothing. *)
Theorem C6_submission_messages
    (d : chat_dom) (w : world) (created : create_result)
    (r : stream_result) :
  (Js.trim (input_value d) ≠ "" →
     ∃ reply,
       appended (chat_messages (Chat.on_submit created r d w).1.2)
       = appended (chat_messages d)
         ++ [Element "div" ["message"; "user"] (Js.trim (input_value d));
             Element "div" ["message"; "assistant"] reply]
       ∧ input_value (Chat.on_submit created r d w).1.2 = "")
  ∧ (Js.trim (input_value d) = "" →
       Chat.on_submit created r d w = (Normal tt, d, w)).
Proof.
  split.
  - intros Hne. rewrite (on_submit_result created r d w _ eq_refl Hne).
    by eexists.
  - apply on_submit_empty.
Qed.

(** C10. When the creation of the session or the streaming send fails, the
    submission still leaves the earlier messages as they were, followed by
    the user message and by the assistant message, whose text is the
    apology and whose streaming mark is removed; the input is cleared, and
    the rest of the widget is as before. *)
Theorem C10_failed_submission_frame
    (d : chat_dom) (w : world) (created : create_result)
    (r : stream_result) :
  Js.trim (input_value d) ≠ "" →
  submission_fails w created r = true →
  let after := (Chat.on_submit created r d w).1.2 in
  appended (chat_messages after)
  = appended (chat_messages d)
    ++ [Element "div" ["message"; "user"] (Js.trim (input_value d));
        Element "div" ["message"; "assistant"] Chat.apology]
  ∧ markup (chat_messages after) = markup (chat_messages d)
  ∧ input_value after = ""
  ∧ widget_classList after = widget_classList d
  ∧ toggle_textContent after = toggle_textContent d.
Proof.
  intros Hne Hfail. cbv zeta.
  rewrite (on_submit_result created r d w _ eq_refl Hne). simpl.
  unfold submission_fails in Hfail. unfold reply_text.
  destruct (chat_session w created); [|done].
  by destruct r as [?|? [?|]].
Qed.

(** The text a stream leaves when every chunk carries text is the
    concatenation of the fragments. *)
Lemma streamed_fragments (chunks : list (option string)) :
  Forall is_Some chunks → streamed chunks = concatenation (fragments chunks).
Proof.
  induction 1 as [|chunk rest [text ->] _ IH]; [done|].
  change (text +:+ streamed rest = text +:+ concatenation (fragments rest)).
  by rewrite IH.
Qed.

(** X17. When the stream completes, the text of the surface it was fed to
    is the concatenation, in the order of delivery, of what the text of
    each chunk converts to: for the paragraph of a section, for the vision
    text and for the assistant message of the chat. When every chunk
    carries text, it is the concatenation of the fragments. *)
Theorem streamed_text_is_concatenation
    (chunks : list (option string))
    (s : plan_section) (c : container element)
    (v : element) (b : button) (titles : list string)
    (d : chat_dom) (created : create_result) (w : world) :
  sec_details s = Some c →
  "expanded" ∉ sec_classList s →
  sec_dataset_content s ≠ Some "loaded" →
  Js.trim (input_value d) ≠ "" →
  is_Some (chat_session w created) →
  let r := Stream chunks None in
  texts <$> sec_details (Explore.on_section r s w).1.2
  = Some [streamed chunks]
  ∧ el_textContent
      <$> (Vision.generateGrandVision (Some v) (Some b) titles r w).1.1
    = Some (streamed chunks)
  ∧ texts (chat_messages (Chat.on_submit created r d w).1.2)
    = texts (chat_messages d)
      ++ [Js.trim (input_value d); streamed chunks]
  ∧ (Forall is_Some chunks →
     streamed chunks = concatenation (fragments chunks)).
Proof.
  intros Hd Hcl Hnl Hne [ss Hss]. cbv zeta. split; [|split; [|split]].
  - by rewrite (on_section_success s w c chunks Hd Hcl Hnl).
  - unfold Vision.generateGrandVision. by rewrite on_elements_result.
  - rewrite (on_submit_result created _ d w _ eq_refl Hne). simpl.
    unfold texts, reply_text. simpl. rewrite fmap_app, Hss. done.
  - apply streamed_fragments.
Qed.

(** C3 (the code departs from it). Each loop appends [chunk.text] as it
    is: for a chunk that carries no text it appends the text [undefined].
    On a stream that delivers "a", a chunk without text and "b", and then
    completes, the fragments concatenate to "ab", and the paragraph of the
    section, the vision text and the assistant message all end with
    "aundefinedb". *)
Theorem C3_textless_chunk_appends_undefined :
  let chunks := [Some "a"; None; Some "b"] in
  let r := Stream chunks None in
  concatenation (fragments chunks) = "ab"
  ∧ texts
      <$> sec_details (Explore.on_section r sample_section sample_world).1.2
    = Some ["aundefinedb"]
  ∧ el_textContent
      <$> (Vision.generateGrandVision (Some sample_visionText)
             (Some sample_visionBtn) ["Phase 1"] r sample_world).1.1
    = Some "aundefinedb"
  ∧ texts (chat_messages (Chat.on_submit (Created 7) r sample_chat
                            sample_world).1.2)
    = ["Hello"; "aundefinedb"].
Proof. by vm_compute. Qed.

(** C9 (the code departs from it). The vision generator and the chat
    never write to the console, whatever the service answers: a failure
    there puts the fallback text on the page and logs nothing, where the
    same failure of a section expansion or of an icon request is logged. *)
Theorem C9_vision_and_chat_failures_not_logged
    (v : element) (b : button) (titles : list string) (d : chat_dom)
    (p : placeholder) (created : create_result) (r : stream_result)
    (detail : string) (w : world) :
  console (Vision.generateGrandVision (Some v) (Some b) titles r w).2
  = console w
  ∧ console (Chat.on_submit created r d w).2 = console w
  ∧ el_textContent
      <$> (Vision.generateGrandVision (Some v) (Some b) titles
             (Rejected detail) w).1.1
    = Some Vision.fallback
  ∧ console (Explore.on_section (Rejected detail) sample_section w).2
    = console w ++ [ConsoleError "Error:" (ServiceFailure detail)]
  ∧ console (Icons.on_placeholder (ImageRejected detail) p w).2
    = console w
      ++ [ConsoleError "Icon generation failed:" (ServiceFailure detail)].
Proof.
  split; [|split; [|split; [|split]]].
  - unfold Vision.generateGrandVision. by rewrite on_elements_result.
  - destruct (decide (Js.trim (input_value d) = "")) as [He|Hne].
    + by rewrite (on_submit_empty created r d w He).
    + by rewrite (on_submit_result created r d w _ eq_refl Hne).
  - unfold Vision.generateGrandVision. by rewrite on_elements_result.
  - by vm_compute.
  - by rewrite on_placeholder_rejected.
Qed.

(** ** The session over the life of the page *)

Lemma goes_on_refl s w : chat w = Some s → goes_on s w w.
Proof. intros H. split; [done|]. exists []. by rewrite app_nil_r. Qed.

Lemma goes_on_trans s w1 w2 w3 :
  goes_on s w1 w2 → goes_on s w2 w3 → goes_on s w1 w3.
Proof.
  intros (_ & new1 & E1 & F1) (Hchat & new2 & E2 & F2). split; [done|].
  exists (new1 ++ new2). rewrite E2, E1, app_assoc. split; [done|].
  by apply Forall_app.
Qed.

Lemma goes_on_log_call s w c :
  chat w = Some s → reuses s c → goes_on s w (log_call c w).
Proof.
  intros H Hc. split; [done|]. exists [c]. split; [done|].
  by apply Forall_singleton.
Qed.

Lemma goes_on_log_error s w w' label e :
  goes_on s w w' → goes_on s w (log_error label e w').
Proof. by intros (? & new & ? & ?); split; [|exists new]. Qed.

Lemma on_section_goes_on s sec w r :
  chat w = Some s → goes_on s w (Explore.on_section r sec w).2.
Proof.
  intros Hchat. destruct (sec_details sec) as [c|] eqn:Hd.
  - destruct (decide ("expanded" ∈ sec_classList sec)) as [Hin|Hout].
    { rewrite (on_section_collapse sec w c r Hd Hin).
      by apply goes_on_refl. }
    destruct (decide (sec_dataset_content sec = Some "loaded")) as [Hl|Hnl].
    { rewrite (on_section_loaded sec w c r Hd Hout Hl).
      by apply goes_on_refl. }
    destruct (stream_fails r) eqn:Hr.
    + destruct (on_section_failure sec w c r Hd Hout Hnl Hr) as [detail ->].
      by apply goes_on_log_error, goes_on_log_call.
    + destruct r as [detail|chunks [detail|]]; try done.
      rewrite (on_section_success sec w c chunks Hd Hout Hnl).
      by apply goes_on_log_call.
  - rewrite (on_section_no_details sec w r Hd). by apply goes_on_refl.
Qed.

Lemma on_submit_goes_on s created r d w :
  chat w = Some s → goes_on s w (Chat.on_submit created r d w).2.
Proof.
  intros Hchat. destruct (decide (Js.trim (input_value d) = "")) as [He|Hne].
  - rewrite (on_submit_empty created r d w He). by apply goes_on_refl.
  - rewrite (on_submit_result created r d w _ eq_refl Hne).
    unfold create_calls, send_calls, chat_session. rewrite Hchat.
    split; [done|]. eexists. split; [done|]. by apply Forall_singleton.
Qed.

Lemma step_goes_on s pg e :
  chat (globals pg) = Some s → goes_on s (globals pg) (globals (step pg e)).
Proof.
  intros Hchat. destruct e as [i r|r|text|created r|]; simpl.
  - unfold click_explore.
    destruct (sections pg !! i) as [sec|]; [|by apply goes_on_refl].
    destruct (clickable (sec_button sec)); [|by apply goes_on_refl].
    pose proof (on_section_goes_on s sec (globals pg) r Hchat) as H.
    unfold Explore.handleExploreClick.
    by destruct (Explore.on_section r sec (globals pg)) as [[? ?] ?].
  - unfold click_vision.
    destruct (vision_btn pg) as [b|]; [|by apply goes_on_refl].
    destruct (clickable b); [|by apply goes_on_refl].
    unfold Vision.generateGrandVision.
    destruct (vision_text pg) as [v|]; [|by apply goes_on_refl].
    rewrite on_elements_result. by apply goes_on_log_call.
  - by apply goes_on_refl.
  - unfold submit_chat.
    pose proof (on_submit_goes_on s created r (chat_widget pg) (globals pg)
                  Hchat) as H.
    by destruct (Chat.on_submit _ _ _ _) as [[? ?] ?].
  - by apply goes_on_refl.
Qed.

Lemma run_goes_on s events : ∀ pg,
  chat (globals pg) = Some s →
  goes_on s (globals pg) (globals (run pg events)).
Proof.
  induction events as [|e events IH]; intros pg Hchat.
  - by apply goes_on_refl.
  - pose proof (step_goes_on s pg e Hchat) as Hstep.
    apply (goes_on_trans _ _ _ _ Hstep). apply IH, Hstep.
Qed.

(** C7. From the moment [chat] holds a session, whatever happens on the
    page, [chat] holds that same session, no call creates a session, and
    every message is sent through that session: [ai.chats.create] is
    called only while [chat] is null, and a session that was created is
    never replaced. *)
Theorem C7_session_created_once
    (pg : page) (before after : list event) (s : session) :
  chat (globals (run pg before)) = Some s →
  chat (globals (run pg (before ++ after))) = Some s
  ∧ ∃ new,
      calls (globals (run pg (before ++ after)))
      = calls (globals (run pg before)) ++ new
      ∧ Forall (reuses s) new.
Proof.
  intros Hchat. unfold run. rewrite foldl_app.
  apply (run_goes_on s after _ Hchat).
Qed.

(** ** The theorems on the sample page *)

Lemma not_expanded_sample : "expanded" ∉ sec_classList sample_section.
Proof.
  apply not_elem_of_cons. split; [discriminate|apply not_elem_of_nil].
Defined.

Lemma C1_cache_invariant_witness :
  (sec_dataset_content sample_section ≠ Some "loaded"
   ∧ ("expanded" ∉ sec_classList sample_section)
   ∧ is_Some (sec_details sample_section))
  ∧ calls (click (sample_section, sample_world) (Stream [Some "a"; Some "b"] None)).2
    = calls sample_world ++ [explore_call sample_section]
  ∧ sec_dataset_content sample_loaded = Some "loaded"
  ∧ calls
      (clicks (sample_loaded, sample_world)
         [Rejected "x"; Stream [Some "y"] None; Rejected "z"]).2
    = calls sample_world.
Proof.
  assert (H1 : sec_dataset_content sample_section ≠ Some "loaded")
    by discriminate.
  assert (H3 : is_Some (sec_details sample_section)) by (by eexists).
  split; [by repeat split; try apply not_expanded_sample|].
  split.
  - apply (C1_cache_invariant sample_section sample_world
             (Stream [Some "a"; Some "b"] None) []);
      [exact H1|exact not_expanded_sample|exact H3].
  - split; [reflexivity|].
    apply (C1_cache_invariant sample_loaded sample_world (Rejected "x")
             [Rejected "x"; Stream [Some "y"] None; Rejected "z"]).
    reflexivity.
Defined.

Lemma C2_retry_by_reentry_witness :
  (sec_details sample_section = Some (Container "" [])
   ∧ ("expanded" ∉ sec_classList sample_section)
   ∧ sec_dataset_content sample_section ≠ Some "loaded"
   ∧ stream_fails (Rejected "503") = true)
  ∧ sec_details (click (sample_section, sample_world) (Rejected "503")).1
    = Some (Container Explore.error_markup [])
  ∧ calls
      (click
         (click (click (sample_section, sample_world) (Rejected "503"))
            (Rejected "unused"))
         (Stream [Some "again"] None)).2
    = calls (click (sample_section, sample_world) (Rejected "503")).2
      ++ [explore_call sample_section].
Proof.
  assert (H3 : sec_dataset_content sample_section ≠ Some "loaded")
    by discriminate.
  split; [by repeat split; try apply not_expanded_sample|].
  pose proof (C2_retry_by_reentry sample_section sample_world
                (Container "" []) (Rejected "503") (Rejected "unused")
                (Stream [Some "again"] None) eq_refl not_expanded_sample H3
                eq_refl) as H.
  cbv zeta in H. split; [apply H|apply H].
Defined.

Lemma trim_sample : Js.trim (input_value sample_chat) ≠ "".
Proof. by vm_compute. Defined.

Lemma streamed_text_is_concatenation_witness :
  (sec_details sample_section = Some (Container "" [])
   ∧ ("expanded" ∉ sec_classList sample_section)
   ∧ sec_dataset_content sample_section ≠ Some "loaded"
   ∧ Js.trim (input_value sample_chat) ≠ ""
   ∧ is_Some (chat_session sample_world (Created 7)))
  ∧ texts
      <$> sec_details
            (Explore.on_section
               (Stream [Some "Once "; None; Some "a time"] None)
               sample_section sample_world).1.2
    = Some [streamed [Some "Once "; None; Some "a time"]]
  ∧ texts
      (chat_messages
         (Chat.on_submit (Created 7)
            (Stream [Some "Once "; None; Some "a time"] None)
            sample_chat sample_world).1.2)
    = texts (chat_messages sample_chat)
      ++ [Js.trim (input_value sample_chat);
          streamed [Some "Once "; None; Some "a time"]]
  ∧ (Forall is_Some [Some "Once "; Some "upon "; Some "a time"]
     ∧ streamed [Some "Once "; Some "upon "; Some "a time"]
       = concatenation (fragments [Some "Once "; Some "upon "; Some "a time"])).
Proof.
  assert (H3 : sec_dataset_content sample_section ≠ Some "loaded")
    by discriminate.
  assert (H5 : is_Some (chat_session sample_world (Created 7)))
    by (by eexists).
  assert (Hall : Forall is_Some [Some "Once "; Some "upon "; Some "a time"])
    by (repeat constructor; by eexists).
  split; [by repeat split; try apply not_expanded_sample; try apply trim_sample|].
  pose proof (streamed_text_is_concatenation
                [Some "Once "; None; Some "a time"] sample_section
                (Container "" []) sample_visionText sample_visionBtn
                ["Phase 1"] sample_chat (Created 7) sample_world eq_refl
                not_expanded_sample H3 trim_sample H5) as H.
  pose proof (streamed_text_is_concatenation
                [Some "Once "; Some "upon "; Some "a time"] sample_section
                (Container "" []) sample_visionText sample_visionBtn
                ["Phase 1"] sample_chat (Created 7) sample_world eq_refl
                not_expanded_sample H3 trim_sample H5) as H'.
  cbv zeta in H, H'. split; [apply H|]. split; [apply H|].
  split; [exact Hall|]. by apply H'.
Defined.

Lemma C5_failure_does_not_block_siblings_witness :
  (1 < length sample_placeholders
   ∧ (∃ detail, sample_answers 1 = ImageRejected detail)
   ∧ (∀ j, j < length sample_placeholders → j ≠ 1 →
        is_Some (image_payload (sample_answers j))))
  ∧ resolved_state
      <$> (Icons.generateIcons sample_placeholders sample_answers
             sample_world).1
    = [Image; FallbackGlyph; Image]
  ∧ length
      (filter (λ p, resolved_state p = Image)
         (Icons.generateIcons sample_placeholders sample_answers
            sample_world).1)
    = length sample_placeholders - 1.
Proof.
  assert (H1 : 1 < length sample_placeholders) by (simpl; lia).
  assert (H2 : ∃ detail, sample_answers 1 = ImageRejected detail)
    by (by eexists).
  assert (H3 : ∀ j, j < length sample_placeholders → j ≠ 1 →
                 is_Some (image_payload (sample_answers j))).
  { intros [|[|[|j]]] Hj Hne; simpl in Hj; try lia; by eexists. }
  split; [done|]. split; [by vm_compute|].
  apply (C5_failure_does_not_block_siblings sample_placeholders
           sample_answers 1 sample_world H1 H2 H3).
Defined.

Lemma C6_submission_messages_witness :
  (Js.trim (input_value sample_chat) ≠ ""
   ∧ Js.trim (input_value blank_chat) = "")
  ∧ (∃ reply,
       appended
         (chat_messages
            (Chat.on_submit (Created 7) (Stream [Some "Hi"; Some "!"] None) sample_chat
               sample_world).1.2)
       = appended (chat_messages sample_chat)
         ++ [Element "div" ["message"; "user"]
               (Js.trim (input_value sample_chat));
             Element "div" ["message"; "assistant"] reply]
       ∧ input_value
           (Chat.on_submit (Created 7) (Stream [Some "Hi"; Some "!"] None) sample_chat
              sample_world).1.2
         = "")
  ∧ Chat.on_submit (Created 7) (Stream [Some "Hi"; Some "!"] None) blank_chat
      sample_world
    = (Normal tt, blank_chat, sample_world).
Proof.
  assert (H2 : Js.trim (input_value blank_chat) = "") by (by vm_compute).
  split; [split; [apply trim_sample|exact H2]|]. split.
  - apply (C6_submission_messages sample_chat sample_world (Created 7)
             (Stream [Some "Hi"; Some "!"] None)).
    apply trim_sample.
  - apply (C6_submission_messages blank_chat sample_world (Created 7)
             (Stream [Some "Hi"; Some "!"] None)).
    exact H2.
Defined.

Lemma C7_session_created_once_witness :
  chat
    (globals (run sample_page [SubmitChat (Created 7) (Stream [Some "Hi"] None)]))
  = Some sample_session
  ∧ chat
      (globals
         (run sample_page
            ([SubmitChat (Created 7) (Stream [Some "Hi"] None)]
             ++ [TypeChat "More?"; SubmitChat (Created 8) (Rejected "503");
                 ClickVision (Stream [Some "One."] None);
                 TypeChat "Again"; SubmitChat (Created 9) (Stream [] None)])))
    = Some sample_session.
Proof.
  assert (H : chat
                (globals
                   (run sample_page
                      [SubmitChat (Created 7) (Stream [Some "Hi"] None)]))
              = Some sample_session) by (by vm_compute).
  split; [exact H|].
  apply (C7_session_created_once sample_page
           [SubmitChat (Created 7) (Stream [Some "Hi"] None)]
           [TypeChat "More?"; SubmitChat (Created 8) (Rejected "503");
            ClickVision (Stream [Some "One."] None);
            TypeChat "Again"; SubmitChat (Created 9) (Stream [] None)]
           sample_session H).
Defined.

Lemma C8_vision_one_shot_witness :
  (vision_text sample_page = Some sample_visionText
   ∧ vision_btn sample_page = Some sample_visionBtn
   ∧ clickable sample_visionBtn = true)
  ∧ ∃ v' b',
      vision_text (step sample_page (ClickVision (Rejected "503"))) = Some v'
      ∧ vision_btn (step sample_page (ClickVision (Rejected "503"))) = Some b'
      ∧ btn_display b' = Some "none"
      ∧ el_textContent v' = Vision.fallback
      ∧ vision_btn
          (run (step sample_page (ClickVision (Rejected "503")))
             [ClickVision (Stream [Some "One."] None); ClickExplore 0 (Rejected "x")])
        = Some b'.
Proof.
  split; [done|].
  destruct (C8_vision_one_shot sample_page sample_visionText sample_visionBtn
              (Rejected "503") (Stream [Some "Two."] None)
              [ClickVision (Stream [Some "One."] None);
               ClickExplore 0 (Rejected "x")]
              eq_refl eq_refl eq_refl)
    as (v' & b' & Hv & Hb & Hdisplay & _ & Htext & _ & _ & Hlater & _).
  exists v', b'. repeat split; try assumption. by apply Htext.
Defined.

Lemma C10_failed_submission_frame_witness :
  (Js.trim (input_value sample_chat) ≠ ""
   ∧ submission_fails sample_world (CreateThrows "401") (Stream [Some "Hi"] None)
     = true)
  ∧ appended
      (chat_messages
         (Chat.on_submit (CreateThrows "401") (Stream [Some "Hi"] None) sample_chat
            sample_world).1.2)
    = appended (chat_messages sample_chat)
      ++ [Element "div" ["message"; "user"]
            (Js.trim (input_value sample_chat));
          Element "div" ["message"; "assistant"] Chat.apology].
Proof.
  split; [split; [apply trim_sample|reflexivity]|].
  apply (C10_failed_submission_frame sample_chat sample_world
           (CreateThrows "401") (Stream [Some "Hi"] None) trim_sample eq_refl).
Defined.


(** * Further properties of the handlers *)

(** ** Section expansion *)

Lemma in_after_add (cl : list string) (c : string) : c ∈ cl ++ [c].
Proof. apply elem_of_app. right. by apply list_elem_of_singleton. Qed.

(** The five ways [handleExploreClick] ends, by what they keep. *)
Lemma on_section_cases s w r c :
  sec_details s = Some c →
  ∃ s' w',
    Explore.on_section r s w = (Normal tt, s', w')
    ∧ chat w' = chat w
    ∧ sec_h2 s' = sec_h2 s ∧ sec_p s' = sec_p s
    ∧ is_Some (sec_details s')
    ∧ btn_display (sec_button s') = btn_display (sec_button s)
    ∧ (btn_disabled (sec_button s) = false →
       btn_disabled (sec_button s') = false)
    ∧ expanded s' = negb (expanded s)
    ∧ btn_textContent (sec_button s')
      = (if expanded s' then "Seal Frontier" else "Explore Frontier")
    ∧ btn_aria_expanded (sec_button s')
      = Some (Js.String_of_bool (expanded s')).
Proof.
  intros Hd. unfold expanded.
  destruct (decide ("expanded" ∈ sec_classList s)) as [Hin|Hout].
  { rewrite (on_section_collapse s w c r Hd Hin). eexists _, _.
    split; [done|]. simpl.
    rewrite (contains_true _ _ Hin),
      (contains_false _ _ (not_in_remove _ _)), Hd.
    by repeat split. }
  rewrite (contains_false _ _ Hout).
  destruct (decide (sec_dataset_content s = Some "loaded")) as [Hl|Hnl].
  { rewrite (on_section_loaded s w c r Hd Hout Hl). eexists _, _.
    split; [done|]. simpl.
    rewrite (contains_true _ _ (in_after_add _ _)), Hd. by repeat split. }
  destruct (stream_fails r) eqn:Hr.
  - destruct (on_section_failure s w c r Hd Hout Hnl Hr) as [detail ->].
    eexists _, _. split; [done|]. simpl.
    rewrite (contains_true _ _ (in_after_add _ _)). by repeat split.
  - destruct r as [detail|chunks [detail|]]; try done.
    rewrite (on_section_success s w c chunks Hd Hout Hnl).
    eexists _, _. split; [done|]. simpl.
    rewrite (contains_true _ _ (in_after_add _ _)). by repeat split.
Qed.

(** X1. After a click on the button of a section that has a details
    container, whatever the service answers: the section is expanded if
    and only if it was collapsed, the label of the button and its
    aria-expanded attribute say which, and a button that was enabled is
    enabled again. *)
Theorem explore_button_tracks_expansion
    (s : plan_section) (w : world) (r : stream_result) :
  is_Some (sec_details s) →
  let s' := (click (s, w) r).1 in
  expanded s' = negb (expanded s)
  ∧ btn_textContent (sec_button s')
    = (if expanded s' then "Seal Frontier" else "Explore Frontier")
  ∧ btn_aria_expanded (sec_button s')
    = Some (Js.String_of_bool (expanded s'))
  ∧ (btn_disabled (sec_button s) = false →
     btn_disabled (sec_button s') = false).
Proof.
  intros [c Hd]. unfold click. simpl.
  destruct (on_section_cases s w r c Hd)
    as (s' & w' & -> & _ & _ & _ & _ & _ & Hen & Hex & Hlabel & Haria).
  done.
Qed.

Lemma explore_button_tracks_expansion_witness :
  is_Some (sec_details sample_section)
  ∧ expanded (click (sample_section, sample_world) (Rejected "503")).1
    = negb (expanded sample_section)
  ∧ btn_textContent
      (sec_button (click (sample_section, sample_world) (Rejected "503")).1)
    = (if expanded (click (sample_section, sample_world) (Rejected "503")).1
       then "Seal Frontier" else "Explore Frontier").
Proof.
  assert (H : is_Some (sec_details sample_section)) by (by eexists).
  split; [exact H|].
  pose proof (explore_button_tracks_expansion sample_section sample_world
                (Rejected "503") H) as Hx.
  cbv zeta in Hx. split; apply Hx.
Defined.

(** X2. A click on the button of a section that has no details container
    changes nothing on the page: the section is not even toggled, and no
    call is made. *)
Theorem explore_without_details_is_noop
    (pg : page) (i : nat) (s : plan_section) (r : stream_result) :
  sections pg !! i = Some s →
  sec_details s = None →
  step pg (ClickExplore i r) = pg.
Proof.
  intros Hi Hd. simpl. unfold click_explore. rewrite Hi.
  destruct (clickable (sec_button s)); [|done].
  unfold Explore.handleExploreClick.
  rewrite (on_section_no_details s (globals pg) r Hd).
  rewrite (list_insert_id _ _ _ Hi). by destruct pg.
Qed.

Lemma explore_without_details_is_noop_witness :
  (sections page_without_vision_text !! 1 = Some bare_section
   ∧ sec_details bare_section = None)
  ∧ step page_without_vision_text (ClickExplore 1 (Stream [Some "a"] None))
    = page_without_vision_text.
Proof.
  split; [done|].
  apply (explore_without_details_is_noop page_without_vision_text 1
           bare_section (Stream [Some "a"] None) eq_refl eq_refl).
Defined.

(** What a click on a learn-more button does to the page. *)
Lemma click_explore_cases pg i r :
  click_explore i r pg = pg
  ∨ ∃ s s' w',
      sections pg !! i = Some s
      ∧ clickable (sec_button s) = true
      ∧ click_explore i r pg
        = {| sections := <[i:=s']> (sections pg);
             placeholders := placeholders pg;
             vision_text := vision_text pg; vision_btn := vision_btn pg;
             chat_widget := chat_widget pg; globals := w' |}
      ∧ chat w' = chat (globals pg)
      ∧ sec_h2 s' = sec_h2 s ∧ sec_p s' = sec_p s
      ∧ clickable (sec_button s') = true.
Proof.
  unfold click_explore.
  destruct (sections pg !! i) as [s|] eqn:Hi; [|by left].
  destruct (clickable (sec_button s)) eqn:Hc; [|by left].
  unfold Explore.handleExploreClick.
  destruct (sec_details s) as [c|] eqn:Hd.
  - destruct (on_section_cases s (globals pg) r c Hd)
      as (s' & w' & -> & Hchat & Hh2 & Hp & _ & Hdisplay & Hen & _).
    right. exists s, s', w'. repeat split; try done.
    unfold clickable in *. rewrite Hdisplay.
    destruct (btn_disabled (sec_button s)); [done|]. by rewrite Hen.
  - rewrite (on_section_no_details s (globals pg) r Hd).
    left. rewrite (list_insert_id _ _ _ Hi). by destruct pg.
Qed.

(** X3. A click on the button of one section leaves every other section,
    the icon placeholders, the vision elements, the chat widget and the
    chat session as they were. *)
Theorem explore_click_is_local
    (pg : page) (i j : nat) (r : stream_result) :
  i ≠ j →
  let pg' := step pg (ClickExplore i r) in
  sections pg' !! j = sections pg !! j
  ∧ length (sections pg') = length (sections pg)
  ∧ placeholders pg' = placeholders pg
  ∧ vision_text pg' = vision_text pg
  ∧ vision_btn pg' = vision_btn pg
  ∧ chat_widget pg' = chat_widget pg
  ∧ chat (globals pg') = chat (globals pg).
Proof.
  intros Hij. cbv zeta. simpl.
  destruct (click_explore_cases pg i r)
    as [->|(s & s' & w' & _ & _ & -> & Hchat & _)]; [done|].
  simpl. rewrite length_insert. by rewrite list_lookup_insert_ne.
Qed.

Lemma explore_click_is_local_witness :
  0 ≠ 1
  ∧ sections (step sample_page (ClickExplore 0 (Stream [Some "a"] None))) !! 1
    = sections sample_page !! 1
  ∧ chat_widget (step sample_page (ClickExplore 0 (Stream [Some "a"] None)))
    = chat_widget sample_page.
Proof.
  assert (H : 0 ≠ 1) by lia. split; [exact H|].
  pose proof (explore_click_is_local sample_page 0 1 (Stream [Some "a"] None) H)
    as Hx.
  cbv zeta in Hx. split; apply Hx.
Defined.

(** ** The page over its life *)

(** What no handler writes to. *)
Lemma step_keeps_structure pg e :
  placeholders (step pg e) = placeholders pg
  ∧ sec_h2 <$> sections (step pg e) = sec_h2 <$> sections pg
  ∧ sec_p <$> sections (step pg e) = sec_p <$> sections pg.
Proof.
  destruct e as [i r|r|text|created r|]; simpl; try done.
  - destruct (click_explore_cases pg i r)
      as [->|(s & s' & w' & Hi & _ & -> & _ & Hh2 & Hp & _)]; [done|].
    simpl. rewrite !list_fmap_insert, Hh2, Hp.
    by rewrite !list_insert_id by (by rewrite list_lookup_fmap, Hi).
  - unfold click_vision. destruct (vision_btn pg) as [b|]; [|done].
    destruct (clickable b); [|done].
    by destruct (Vision.generateGrandVision _ _ _ _ _) as [[? ?] ?].
  - unfold submit_chat. by destruct (Chat.on_submit _ _ _ _) as [[? ?] ?].
Qed.

(** X4. Whatever the user does and whatever the service answers, the icon
    placeholders stay as the icon fetcher left them, and the titles and
    summaries of the sections, from which the prompts are built, never
    change. *)
Theorem page_structure_is_invariant (pg : page) (events : list event) :
  placeholders (run pg events) = placeholders pg
  ∧ sec_h2 <$> sections (run pg events) = sec_h2 <$> sections pg
  ∧ sec_p <$> sections (run pg events) = sec_p <$> sections pg.
Proof.
  revert pg. induction events as [|e events IH]; intros pg; [done|].
  unfold run. simpl. fold (run (step pg e) events).
  destruct (IH (step pg e)) as (-> & -> & ->). apply step_keeps_structure.
Qed.

(** X5. No handler leaves a learn-more button disabled or hidden: if every
    section button can be clicked, then after any sequence of events,
    failures included, every section button can still be clicked. *)
Theorem section_buttons_stay_clickable (pg : page) (events : list event) :
  Forall (λ s, clickable (sec_button s) = true) (sections pg) →
  Forall (λ s, clickable (sec_button s) = true) (sections (run pg events)).
Proof.
  revert pg. induction events as [|e events IH]; intros pg Hall; [done|].
  unfold run. simpl. fold (run (step pg e) events). apply IH.
  destruct e as [i r|r|text|created r|]; simpl; try done.
  - destruct (click_explore_cases pg i r)
      as [->|(s & s' & w' & _ & _ & -> & _ & _ & _ & Hc)]; [done|].
    simpl. by apply Forall_insert.
  - unfold click_vision. destruct (vision_btn pg) as [b|]; [|done].
    destruct (clickable b); [|done].
    by destruct (Vision.generateGrandVision _ _ _ _ _) as [[? ?] ?].
  - unfold submit_chat. by destruct (Chat.on_submit _ _ _ _) as [[? ?] ?].
Qed.

Lemma section_buttons_stay_clickable_witness :
  Forall (λ s, clickable (sec_button s) = true) (sections sample_page)
  ∧ Forall (λ s, clickable (sec_button s) = true)
      (sections
         (run sample_page
            [ClickExplore 0 (Rejected "503");
             ClickExplore 0 (Stream [] None);
             ClickExplore 0 (Stream [Some "a"] (Some "reset"));
             ClickExplore 1 (Rejected "unused")])).
Proof.
  assert (H : Forall (λ s, clickable (sec_button s) = true)
                (sections sample_page))
    by (repeat constructor).
  split; [exact H|].
  apply (section_buttons_stay_clickable sample_page _ H).
Defined.

(** ** Icons *)

Lemma resolve_keeps_phase r p :
  ph_dataset_phase (resolve r p) = ph_dataset_phase p.
Proof.
  destruct r as [detail|response]; simpl; [done|].
  destruct (parts_read response) as [parts|]; [|done].
  by destruct (first_inlineData parts).
Qed.

(** One placeholder: one request, and one console entry if the fetcher
    ends in its [catch]. *)
Lemma on_placeholder_world r p w :
  ∃ w',
    Icons.on_placeholder r p w = (Normal tt, resolve r p, w')
    ∧ calls w' = calls w ++ [icon_call p]
    ∧ chat w' = chat w
    ∧ length (console w')
      = length (console w) + (if answer_fails r then 1 else 0).
Proof.
  destruct r as [detail|response]; simpl.
  - rewrite on_placeholder_rejected. eexists. split; [done|]. simpl.
    rewrite length_app. by repeat split.
  - destruct (parts_read response) as [parts|] eqn:Hparts.
    + rewrite (on_placeholder_parts p w response parts Hparts).
      eexists. split; [done|]. simpl. repeat split. lia.
    + destruct (on_placeholder_malformed p w response Hparts) as [detail ->].
      eexists. split; [done|]. simpl. rewrite length_app. by repeat split.
Qed.

Lemma generateIcons_from_world answers phs : ∀ i w,
  let w' := (Icons.generateIcons_from i phs answers w).2 in
  calls w' = calls w ++ (icon_call <$> phs)
  ∧ chat w' = chat w
  ∧ length (console w')
    = length (console w)
      + length (filter (λ j, answer_fails (answers j) = true)
                  (seq i (length phs))).
Proof.
  induction phs as [|p phs IH]; intros i w; simpl.
  - rewrite app_nil_r. repeat split. lia.
  - destruct (on_placeholder_world (answers i) p w)
      as (w1 & -> & Hcalls & Hchat & Hconsole).
    specialize (IH (S i) w1). cbv zeta in IH.
    destruct (Icons.generateIcons_from (S i) phs answers w1) as [rest w2].
    simpl in *. destruct IH as (-> & -> & ->).
    rewrite Hcalls, Hchat, Hconsole, <- app_assoc. split; [done|].
    split; [done|].
    destruct (answer_fails (answers i)) eqn:Hfail.
    + rewrite filter_cons_True by done. simpl. lia.
    + rewrite filter_cons_False by (by rewrite Hfail). lia.
Qed.

(** X6. The icon fetcher makes exactly one request per placeholder, in the
    order of the placeholders, whatever the answers are; it keeps the phase
    label of every placeholder, it does not touch the chat session, and it
    writes one console entry per answer that is rejected or malformed. *)
Theorem icons_one_request_per_placeholder
    (phs : list placeholder) (answers : nat → image_result) (w : world) :
  let phs' := (Icons.generateIcons phs answers w).1 in
  let w' := (Icons.generateIcons phs answers w).2 in
  calls w' = calls w ++ (icon_call <$> phs)
  ∧ ph_dataset_phase <$> phs' = ph_dataset_phase <$> phs
  ∧ chat w' = chat w
  ∧ length (console w')
    = length (console w)
      + length (filter (λ j, answer_fails (answers j) = true)
                  (seq 0 (length phs))).
Proof.
  cbv zeta. unfold Icons.generateIcons.
  destruct (generateIcons_from_world answers phs 0 w) as (Hc & Hchat & Hlog).
  split; [done|]. split; [|done].
  rewrite generateIcons_from_resolves. apply list_eq. intros j.
  rewrite !list_lookup_fmap, list_lookup_imap.
  destruct (phs !! j) as [p|]; [|done]. simpl.
  by rewrite resolve_keeps_phase.
Qed.

Lemma first_inlineData_skips pre rest :
  Forall (λ q, part_inlineData q = None) pre →
  first_inlineData (pre ++ rest) = first_inlineData rest.
Proof.
  induction 1 as [|q pre Hq _ IH]; [done|]. simpl. by rewrite Hq.
Qed.

(** X7. The image of a placeholder is made from the first part of the
    first candidate that carries inline data: the parts before it carry
    none, and neither the parts after it nor the other candidates are
    looked at. The image has the data URL of that payload and the phase
    name as its alternative text. *)
Theorem icon_first_inline_part_wins
    (p : placeholder) (w : world) (pre post : list part)
    (text : option string) (inlineData : blob) (others : list candidate) :
  Forall (λ q, part_inlineData q = None) pre →
  let response :=
    ImageResponse
      (Some
         (Candidate
            (Some
               (Content (Some (pre ++ Part text (Some inlineData) :: post))))
          :: others)) in
  Icons.on_placeholder (ImageOk response) p w
  = (Normal tt,
     {| ph_dataset_phase := ph_dataset_phase p;
        ph_content :=
          Container ""
            [Img ("data:image/png;base64," +:+ blob_data inlineData)
                 (Js.or_else (ph_dataset_phase p) "Future technology")];
        ph_fontSize := ph_fontSize p; ph_color := ph_color p |},
     log_call (icon_call p) w).
Proof.
  intros Hpre response.
  rewrite (on_placeholder_parts p w response
             (pre ++ Part text (Some inlineData) :: post) eq_refl).
  by rewrite (first_inlineData_skips _ _ Hpre).
Qed.

Lemma icon_first_inline_part_wins_witness :
  Forall (λ q, part_inlineData q = None) [Part (Some "Here it is.") None]
  ∧ ph_content
      (Icons.on_placeholder
         (ImageOk
            (ImageResponse
               (Some
                  [Candidate
                     (Some
                        (Content
                           (Some
                              ([Part (Some "Here it is.") None]
                               ++ Part None (Some (Blob "Zmlyc3Q="))
                                  :: [Part None (Some (Blob "c2Vjb25k"))]))));
                   Candidate None])))
         (Placeholder None (Container "" []) None None) sample_world).1.2
    = Container ""
        [Img "data:image/png;base64,Zmlyc3Q=" "Future technology"].
Proof.
  assert (H : Forall (λ q, part_inlineData q = None)
                [Part (Some "Here it is.") None])
    by (repeat constructor).
  split; [exact H|].
  by rewrite (icon_first_inline_part_wins
                (Placeholder None (Container "" []) None None) sample_world
                [Part (Some "Here it is.") None]
                [Part None (Some (Blob "c2Vjb25k"))]
                None (Blob "Zmlyc3Q=") [Candidate None] H).
Defined.

(** X8. A response that lacks a level on the way to the parts (no
    candidates, an empty list of candidates, a first candidate without
    content, a content without parts) is handled as a rejected request: the
    placeholder shows the fallback glyph with its styling, and the
    [TypeError] is written to the console. *)
Theorem icon_malformed_response_falls_back
    (p : placeholder) (w : world) (response : image_response) :
  parts_read response = None →
  ∃ detail,
    Icons.on_placeholder (ImageOk response) p w
    = (Normal tt,
       {| ph_dataset_phase := ph_dataset_phase p;
          ph_content := Container Icons.glyph [];
          ph_fontSize := Some "24px"; ph_color := Some "#3b82f6" |},
       log_error "Icon generation failed:" (TypeError detail)
         (log_call (icon_call p) w)).
Proof. apply on_placeholder_malformed. Qed.

Lemma icon_malformed_response_falls_back_witness :
  parts_read (ImageResponse (Some [])) = None
  ∧ ∃ detail,
      Icons.on_placeholder (ImageOk (ImageResponse (Some [])))
        (Placeholder (Some "Phase 1") (Container "" []) None None)
        sample_world
      = (Normal tt,
         {| ph_dataset_phase := Some "Phase 1";
            ph_content := Container Icons.glyph [];
            ph_fontSize := Some "24px"; ph_color := Some "#3b82f6" |},
         log_error "Icon generation failed:" (TypeError detail)
           (log_call
              (icon_call
                 (Placeholder (Some "Phase 1") (Container "" []) None None))
              sample_world)).
Proof.
  split; [reflexivity|].
  apply (icon_malformed_response_falls_back
           (Placeholder (Some "Phase 1") (Container "" []) None None)
           sample_world (ImageResponse (Some [])) eq_refl).
Defined.

(** ** Vision *)

Lemma elem_of_remove (cl : list string) (c x : string) :
  c ∈ Js.remove cl x ↔ c ∈ cl ∧ c ≠ x.
Proof. unfold Js.remove. rewrite list_elem_of_filter. tauto. Qed.

Lemma elem_of_add (cl : list string) (c x : string) :
  c ∈ Js.add cl x ↔ c ∈ cl ∨ c = x.
Proof.
  unfold Js.add, Js.contains. case_bool_decide as Hx.
  - split; [by left|]. by intros [?| ->].
  - rewrite elem_of_app, list_elem_of_singleton. tauto.
Qed.

(** X9. The vision generator takes the placeholder mark and the streaming
    mark off the vision text and keeps every other class of it; the text it
    leaves does not depend on the text that was there; the label of the
    button is kept. This holds whatever the service answers. *)
Theorem vision_keeps_other_classes
    (v : element) (b : button) (titles : list string) (r : stream_result)
    (w : world) (c : string) :
  let d := (Vision.on_elements titles r (VisionDom v b) w).1.2 in
  (c ∈ el_classList (visionText d)
   ↔ c ∈ el_classList v ∧ c ≠ "placeholder-text" ∧ c ≠ "streaming")
  ∧ el_tag (visionText d) = el_tag v
  ∧ el_textContent (visionText d) = final_text Vision.fallback r
  ∧ btn_textContent (btn d) = btn_textContent b.
Proof.
  cbv zeta. rewrite on_elements_result. simpl. split; [|done].
  rewrite elem_of_remove, elem_of_add, elem_of_remove. tauto.
Qed.

(** X10. On a page without the vision text, clicks on the vision button do
    nothing at all: no call is made, and the button is neither disabled nor
    hidden. *)
Theorem vision_without_text_is_noop (pg : page) (rs : list stream_result) :
  vision_text pg = None →
  run pg (ClickVision <$> rs) = pg.
Proof.
  intros Hv. induction rs as [|r rs IH]; [done|].
  unfold run. simpl. fold (run (click_vision r pg) (ClickVision <$> rs)).
  assert (click_vision r pg = pg) as ->; [|done].
  unfold click_vision, Vision.generateGrandVision. rewrite Hv.
  destruct (vision_btn pg) as [b|] eqn:Hb; [|done].
  destruct (clickable b); [|done].
  destruct pg. simpl in *. by subst.
Qed.

Lemma vision_without_text_is_noop_witness :
  vision_text page_without_vision_text = None
  ∧ run page_without_vision_text
      (ClickVision <$> [Stream [Some "One."] None; Rejected "503"])
    = page_without_vision_text.
Proof.
  split; [reflexivity|].
  apply (vision_without_text_is_noop page_without_vision_text
           [Stream [Some "One."] None; Rejected "503"] eq_refl).
Defined.

(** ** No retry *)

Lemma on_section_calls s w r :
  calls (Explore.on_section r s w).2 = calls w
  ∨ calls (Explore.on_section r s w).2 = calls w ++ [explore_call s].
Proof.
  destruct (sec_details s) as [c|] eqn:Hd.
  - destruct (decide ("expanded" ∈ sec_classList s)) as [Hin|Hout].
    { left. by rewrite (on_section_collapse s w c r Hd Hin). }
    destruct (decide (sec_dataset_content s = Some "loaded")) as [Hl|Hnl].
    { left. by rewrite (on_section_loaded s w c r Hd Hout Hl). }
    right. destruct (stream_fails r) eqn:Hr.
    + by destruct (on_section_failure s w c r Hd Hout Hnl Hr) as [detail ->].
    + destruct r as [detail|chunks [detail|]]; try done.
      by rewrite (on_section_success s w c chunks Hd Hout Hnl).
  - left. by rewrite (on_section_no_details s w r Hd).
Qed.

(** X11. No handler retries by itself: one user event makes no call, or
    one call, or the creation of the chat session followed by one send,
    and this whether the call succeeds or fails. *)
Theorem no_automatic_retry (pg : page) (e : event) :
  ∃ new,
    calls (globals (step pg e)) = calls (globals pg) ++ new
    ∧ (new = []
       ∨ (∃ c, new = [c])
       ∨ ∃ s message,
           new = [ChatsCreate Chat.model Chat.systemInstruction;
                  SendMessageStream s message]).
Proof.
  assert (Hnone : ∃ new,
            calls (globals pg) = calls (globals pg) ++ new
            ∧ (new = []
               ∨ (∃ c, new = [c])
               ∨ ∃ s message,
                   new = [ChatsCreate Chat.model Chat.systemInstruction;
                          SendMessageStream s message])).
  { exists []. rewrite app_nil_r. by split; [|left]. }
  destruct e as [i r|r|text|created r|]; simpl; try done.
  - unfold click_explore.
    destruct (sections pg !! i) as [s|]; [|done].
    destruct (clickable (sec_button s)); [|done].
    unfold Explore.handleExploreClick.
    pose proof (on_section_calls s (globals pg) r) as Hcalls.
    destruct (Explore.on_section r s (globals pg)) as [[? s'] w']. simpl in *.
    destruct Hcalls as [->| ->]; [done|].
    eexists. split; [done|]. right. left. by eexists.
  - unfold click_vision. destruct (vision_btn pg) as [b|]; [|done].
    destruct (clickable b); [|done]. unfold Vision.generateGrandVision.
    destruct (vision_text pg) as [v|]; [|done].
    rewrite on_elements_result. simpl.
    eexists. split; [done|]. right. left. by eexists.
  - unfold submit_chat.
    destruct (decide (Js.trim (input_value (chat_widget pg)) = ""))
      as [He|Hne].
    + by rewrite (on_submit_empty created r _ (globals pg) He).
    + rewrite (on_submit_result created r _ (globals pg) _ eq_refl Hne).
      simpl. eexists. split; [done|].
      unfold create_calls, send_calls, chat_session.
      destruct (chat (globals pg)) as [s|]; simpl.
      * right. left. by eexists.
      * destruct created as [detail|id]; simpl.
        -- right. left. by eexists.
        -- right. right. by eexists _, _.
Qed.

(** ** Chat *)

(** X12. When [ai.chats.create] throws, nothing is sent and [chat] stays
    null, so the next submission with a message calls [ai.chats.create]
    again; if that creation succeeds, the message goes through the new
    session, which [chat] then holds. *)
Theorem chat_creation_is_retried
    (d d2 : chat_dom) (w : world) (r r2 : stream_result) (detail : string)
    (id : nat) :
  chat w = None →
  Js.trim (input_value d) ≠ "" →
  Js.trim (input_value d2) ≠ "" →
  let w1 := (Chat.on_submit (CreateThrows detail) r d w).2 in
  let w2 := (Chat.on_submit (Created id) r2 d2 w1).2 in
  let s := Session id Chat.model Chat.systemInstruction in
  chat w1 = None
  ∧ calls w1 = calls w ++ [ChatsCreate Chat.model Chat.systemInstruction]
  ∧ chat w2 = Some s
  ∧ calls w2
    = calls w1
      ++ [ChatsCreate Chat.model Chat.systemInstruction;
          SendMessageStream s (Js.trim (input_value d2))].
Proof.
  intros Hchat Hne Hne2. cbv zeta.
  rewrite (on_submit_result (CreateThrows detail) r d w _ eq_refl Hne).
  unfold create_calls, send_calls, chat_session. rewrite Hchat. simpl.
  rewrite (on_submit_result (Created id) r2 d2 _ _ eq_refl Hne2).
  unfold create_calls, send_calls, chat_session. by simpl.
Qed.

Lemma chat_creation_is_retried_witness :
  (chat sample_world = None
   ∧ Js.trim (input_value sample_chat) ≠ "")
  ∧ chat
      (Chat.on_submit (CreateThrows "401") (Stream [Some "Hi"] None) sample_chat
         sample_world).2
    = None
  ∧ chat
      (Chat.on_submit (Created 7) (Stream [Some "Hi"] None) sample_chat
         (Chat.on_submit (CreateThrows "401") (Stream [Some "Hi"] None)
            sample_chat sample_world).2).2
    = Some sample_session.
Proof.
  split; [split; [reflexivity|apply trim_sample]|].
  pose proof (chat_creation_is_retried sample_chat sample_chat sample_world
                (Stream [Some "Hi"] None) (Stream [Some "Hi"] None) "401" 7 eq_refl
                trim_sample trim_sample) as H.
  cbv zeta in H. split; apply H.
Defined.

(** X13. What is sent to the session is the trimmed text, the same text
    as in the user message, and the transcript is scrolled to its end once
    after the user message and once more for every chunk that arrives,
    also when the stream throws after those chunks; when the send itself
    is rejected it is scrolled once. *)
Theorem chat_sends_trimmed_text_and_scrolls
    (d : chat_dom) (w : world) (created : create_result) (s : session)
    (chunks : list (option string)) (failure : option string)
    (detail : string) :
  Js.trim (input_value d) ≠ "" →
  chat_session w created = Some s →
  let streamed := Chat.on_submit created (Stream chunks failure) d w in
  let rejected := Chat.on_submit created (Rejected detail) d w in
  calls streamed.2
  = calls w ++ create_calls w
    ++ [SendMessageStream s (Js.trim (input_value d))]
  ∧ calls rejected.2 = calls streamed.2
  ∧ scrolled streamed.1.2 = S (scrolled d) + length chunks
  ∧ scrolled rejected.1.2 = S (scrolled d).
Proof.
  intros Hne Hs. cbv zeta.
  rewrite !(on_submit_result created _ d w _ eq_refl Hne). simpl.
  unfold send_calls, chunks_fed. rewrite Hs. repeat split. lia.
Qed.

Lemma chat_sends_trimmed_text_and_scrolls_witness :
  (Js.trim (input_value sample_chat) ≠ ""
   ∧ chat_session sample_world (Created 7) = Some sample_session)
  ∧ scrolled
      (Chat.on_submit (Created 7) (Stream [Some "a"; Some "b"; Some "c"] (Some "reset"))
         sample_chat sample_world).1.2
    = S (scrolled sample_chat) + length [Some "a"; Some "b"; Some "c"].
Proof.
  split; [split; [apply trim_sample|reflexivity]|].
  apply (chat_sends_trimmed_text_and_scrolls sample_chat sample_world
           (Created 7) sample_session [Some "a"; Some "b"; Some "c"]
           (Some "reset") "503"
           trim_sample eq_refl).
Defined.

Lemma step_transcript pg e :
  markup (chat_messages (chat_widget (step pg e)))
  = markup (chat_messages (chat_widget pg))
  ∧ ∃ new,
      appended (chat_messages (chat_widget (step pg e)))
      = appended (chat_messages (chat_widget pg)) ++ new
      ∧ Forall settled new.
Proof.
  assert (Hnone : ∀ l : list element, ∃ new, l = l ++ new ∧ Forall settled new).
  { intros l. exists []. by rewrite app_nil_r. }
  destruct e as [i r|r|text|created r|]; simpl.
  - destruct (click_explore_cases pg i r)
      as [->|(s & s' & w' & _ & _ & -> & _)]; by split.
  - unfold click_vision. destruct (vision_btn pg) as [b|]; [|by split].
    destruct (clickable b); [|by split].
    by destruct (Vision.generateGrandVision _ _ _ _ _) as [[? ?] ?].
  - by destruct (chat_widget pg).
  - unfold submit_chat.
    destruct (decide (Js.trim (input_value (chat_widget pg)) = ""))
      as [He|Hne].
    + by rewrite (on_submit_empty created r _ (globals pg) He).
    + rewrite (on_submit_result created r _ (globals pg) _ eq_refl Hne).
      simpl. split; [done|]. eexists. split; [done|].
      repeat constructor; unfold settled; simpl;
        rewrite !not_elem_of_cons; repeat split; try discriminate;
        apply not_elem_of_nil.
  - unfold Chat.on_toggle.
    by destruct (Js.toggle _ _), (chat_widget pg).
Qed.

(** X14. The transcript only grows: after any sequence of events, the
    messages that were there are still there, unchanged and in the same
    order, followed by the new ones; and none of the new messages is left
    with the streaming mark, also when its reply failed. *)
Theorem transcript_only_grows (pg : page) (events : list event) :
  markup (chat_messages (chat_widget (run pg events)))
  = markup (chat_messages (chat_widget pg))
  ∧ ∃ new,
      appended (chat_messages (chat_widget (run pg events)))
      = appended (chat_messages (chat_widget pg)) ++ new
      ∧ Forall settled new.
Proof.
  revert pg. induction events as [|e events IH]; intros pg.
  - split; [done|]. exists []. by rewrite app_nil_r.
  - unfold run. simpl. fold (run (step pg e) events).
    destruct (IH (step pg e)) as (-> & new2 & -> & H2).
    destruct (step_transcript pg e) as (-> & new1 & -> & H1).
    split; [done|]. exists (new1 ++ new2). rewrite app_assoc.
    split; [done|]. by apply Forall_app.
Qed.

(** X15. The collapse toggle of the chat flips the collapsed mark of the
    widget and keeps its other classes; the arrow on the toggle says
    whether the widget is now collapsed; the input and the transcript are
    not touched. *)
Theorem chat_toggle_flips (d : chat_dom) (c : string) :
  let d' := Chat.on_toggle d in
  Js.contains (widget_classList d') "collapsed"
  = negb (Js.contains (widget_classList d) "collapsed")
  ∧ (c ≠ "collapsed" → c ∈ widget_classList d' ↔ c ∈ widget_classList d)
  ∧ toggle_textContent d'
    = (if Js.contains (widget_classList d') "collapsed" then "↑" else "↓")
  ∧ input_value d' = input_value d
  ∧ chat_messages d' = chat_messages d
  ∧ scrolled d' = scrolled d.
Proof.
  cbv zeta. unfold Chat.on_toggle, Js.toggle.
  destruct (Js.contains (widget_classList d) "collapsed") eqn:Hc; simpl.
  - rewrite (contains_false _ _ (not_in_remove _ _)).
    repeat split; try done; rewrite elem_of_remove; tauto.
  - rewrite (contains_true _ _ (in_after_add _ _)).
    repeat split; try done; rewrite elem_of_app, list_elem_of_singleton;
      tauto.
Qed.

Lemma chat_toggle_flips_witness :
  "message" ≠ "collapsed"
  ∧ Js.contains (widget_classList (Chat.on_toggle sample_chat)) "collapsed"
    = negb (Js.contains (widget_classList sample_chat) "collapsed")
  ∧ toggle_textContent (Chat.on_toggle (Chat.on_toggle sample_chat))
    = (if Js.contains
            (widget_classList (Chat.on_toggle (Chat.on_toggle sample_chat)))
            "collapsed"
       then "↑" else "↓").
Proof.
  split; [discriminate|]. split.
  - apply (chat_toggle_flips sample_chat "message").
  - apply (chat_toggle_flips (Chat.on_toggle sample_chat) "message").
Defined.

(** ** Page load *)

(** X16. At page load the state of each placeholder depends on the answer
    to its own request only, whatever happens to the others: an answer
    that is rejected or malformed gives the fallback glyph, an answer with
    an inline image gives an image, and any other answer leaves the
    placeholder as it was. The sections, the vision elements and the chat
    widget are not touched. *)
Theorem initialize_resolves_each_placeholder
    (pg : page) (answers : nat → image_result) (j : nat) (p : placeholder) :
  placeholders pg !! j = Some p →
  let pg' := initialize answers pg in
  ∃ p',
    placeholders pg' !! j = Some p'
    ∧ (answer_fails (answers j) = true → resolved_state p' = FallbackGlyph)
    ∧ (is_Some (image_payload (answers j)) → resolved_state p' = Image)
    ∧ (answer_fails (answers j) = false →
       image_payload (answers j) = None → p' = p)
    ∧ sections pg' = sections pg
    ∧ vision_text pg' = vision_text pg
    ∧ vision_btn pg' = vision_btn pg
    ∧ chat_widget pg' = chat_widget pg.
Proof.
  intros Hj. cbv zeta. unfold initialize.
  pose proof (generateIcons_from_resolves answers (placeholders pg) 0
                (globals pg)) as Hres.
  unfold Icons.generateIcons.
  destruct (Icons.generateIcons_from 0 (placeholders pg) answers (globals pg))
    as [phs w']. simpl in *. subst phs.
  exists (resolve (answers j) p).
  rewrite list_lookup_imap, Hj. split; [done|].
  destruct (answers j) as [detail|response]; simpl.
  - repeat split; try done; by intros [? ?].
  - destruct (parts_read response) as [parts|]; simpl.
    + destruct (first_inlineData parts) as [inlineData|]; repeat split;
        try done; by intros [? ?].
    + repeat split; try done; by intros [? ?].
Qed.

Lemma initialize_resolves_each_placeholder_witness :
  placeholders sample_page !! 1
  = Some (Placeholder (Some "Phase 2") (Container "" []) None None)
  ∧ resolved_state <$> placeholders (initialize sample_answers sample_page)
    = [Image; FallbackGlyph; Image]
  ∧ ∃ p',
      placeholders (initialize sample_answers sample_page) !! 1 = Some p'
      ∧ resolved_state p' = FallbackGlyph.
Proof.
  split; [reflexivity|]. split; [by vm_compute|].
  destruct (initialize_resolves_each_placeholder sample_page sample_answers 1
              (Placeholder (Some "Phase 2") (Container "" []) None None)
              eq_refl)
    as (p' & Hp' & Hfail & _).
  exists p'. split; [exact Hp'|]. by apply Hfail.
Defined.
